(** * pythonscriptdeck: the background-service registry and its executor

    A shallow embedding of the Stream Deck plugin's TypeScript sources:
    - [python-bg-service.ts] (class [PythonBackgroundService]),
    - [actions/python-service.ts] (class [PythonService]),
    - [actions/python-script.ts] (class [PythonScript]).

    JavaScript values are modelled as follows.
    - A [number] is an IEEE 754 binary64 value: Rocq's primitive [float].
    - A [string] is a sequence of code units; the model covers the code
      units below 256 (one [ascii] each).
    - An optional property is an [option]; truthiness is written out.
    - The Node timer table ([setInterval]/[clearInterval]) is a finite map
      from handles to the pending callbacks.
    - Calls into the host SDK ([setImage], [setTitle], [showAlert]) are
      returned as a list of commands, in program order. Logging is dropped. *)

From Stdlib Require Import ZArith Ascii String PrimFloat SpecFloat FloatOps FloatAxioms.
From stdpp Require Import gmap strings list fin_maps.

Local Open Scope string_scope.

(** ** JavaScript strings *)

Module JsString.

(** WhiteSpace and LineTerminator code units below 256:
    TAB, LF, VT, FF, CR, SP and NBSP. *)
Definition isWhiteSpace (c : ascii) : bool :=
  match nat_of_ascii c with
  | 9 | 10 | 11 | 12 | 13 | 32 | 160 => true
  | _ => false
  end.

Fixpoint trimStart (s : string) : string :=
  match s with
  | EmptyString => EmptyString
  | String c r => if isWhiteSpace c then trimStart r else s
  end.

Definition isEmpty (s : string) : bool :=
  match s with EmptyString => true | _ => false end.

Fixpoint trimEnd (s : string) : string :=
  match s with
  | EmptyString => EmptyString
  | String c r =>
      let r' := trimEnd r in
      if isWhiteSpace c && isEmpty r' then EmptyString else String c r'
  end.

(** [String.prototype.trim] *)
Definition trim (s : string) : string := trimEnd (trimStart s).

(** [s.includes(key)]: [key] occurs in [s] as a contiguous substring. *)
Fixpoint includes (s key : string) : bool :=
  String.prefix key s
  || match s with
     | EmptyString => false
     | String _ r => includes r key
     end.

Definition CR : ascii := ascii_of_nat 13.
Definition LF : ascii := ascii_of_nat 10.

(** [s.replace(/(?:\r\n|\r|\n)/g, " ")]: the alternation is ordered, so a
    CR LF pair is one match. *)
Fixpoint replaceNewlines (s : string) : string :=
  match s with
  | EmptyString => EmptyString
  | String c r =>
      if Ascii.eqb c CR then
        match r with
        | String c' r' =>
            if Ascii.eqb c' LF then String " " (replaceNewlines r')
            else String " " (replaceNewlines r)
        | EmptyString => String " " EmptyString
        end
      else if Ascii.eqb c LF then String " " (replaceNewlines r)
      else String c (replaceNewlines r)
  end.

(** [s.lastIndexOf("/")], as the number of code units to drop to reach the
    position after the last slash: [substring(lastIndexOf("/") + 1)]. *)
Fixpoint afterLastSlash (s : string) : string :=
  match s with
  | EmptyString => EmptyString
  | String c r =>
      if includes r "/" then afterLastSlash r
      else if Ascii.eqb c "/" then r else s
  end.

(** Truthiness of an optional string property: present and not empty. *)
Definition truthy (o : option string) : bool :=
  match o with
  | Some s => negb (isEmpty s)
  | None => false
  end.

End JsString.

(** ** JavaScript numbers *)

Module JsNumber.

(** [Number.isFinite] on a number: neither NaN nor an infinity. *)
Definition isFinite (x : float) : bool := PrimFloat.is_finite x.

(** The real [m * 10^e], rounded to the nearest binary64 (ties to even). *)
Definition ofDecimal (neg : bool) (m : N) (e : Z) : float :=
  match m with
  | N0 => if neg then PrimFloat.neg_zero else PrimFloat.zero
  | Npos p =>
      SF2Prim
        (if (0 <=? e)%Z then
           binary_round prec emax neg (p * Z.to_pos (10 ^ e))%positive 0
         else
           let '(q, e', l) :=
             SFdiv_core_binary prec emax (Zpos p) 0 (10 ^ (- e))%Z 0 in
           binary_round_aux prec emax neg q e' l)
  end.

Definition digitValue (base : N) (c : ascii) : option N :=
  let n := N_of_ascii c in
  let v :=
    if (48 <=? n)%N && (n <=? 57)%N then Some (n - 48)%N
    else if (97 <=? n)%N && (n <=? 102)%N then Some (n - 87)%N
    else if (65 <=? n)%N && (n <=? 70)%N then Some (n - 55)%N
    else None in
  match v with
  | Some d => if (d <? base)%N then Some d else None
  | None => None
  end.

(** Reads the longest run of digits of [base]: the value read so far, the
    number of digits read, and the rest of the input. *)
Fixpoint readDigits (base : N) (acc : N) (count : nat) (s : string)
  : N * nat * string :=
  match s with
  | EmptyString => (acc, count, s)
  | String c r =>
      match digitValue base c with
      | Some d => readDigits base (acc * base + d)%N (S count) r
      | None => (acc, count, s)
      end
  end.

Definition readSign (s : string) : bool * string :=
  match s with
  | String "+" r => (false, r)
  | String "-" r => (true, r)
  | _ => (false, s)
  end.

(** ExponentPart_opt followed by the end of the input. *)
Definition readExponent (s : string) : option Z :=
  match s with
  | EmptyString => Some 0%Z
  | String c r =>
      if Ascii.eqb c "e" || Ascii.eqb c "E" then
        let '(neg, r1) := readSign r in
        match readDigits 10 0 0 r1 with
        | (_, O, _) => None
        | (v, _, EmptyString) =>
            Some (if neg then (- Z.of_N v)%Z else Z.of_N v)
        | _ => None
        end
      else None
  end.

(** StrUnsignedDecimalLiteral, without the [Infinity] alternative. *)
Definition readUnsignedDecimal (neg : bool) (s : string) : option float :=
  let '(ip, ni, r1) := readDigits 10 0 0 s in
  let '(m, nf, r2) :=
    match r1 with
    | String "." r => readDigits 10 ip 0 r
    | _ => (ip, O, r1)
    end in
  match ni, nf with
  | O, O => None
  | _, _ =>
      match readExponent r2 with
      | Some e => Some (ofDecimal neg m (e - Z.of_nat nf))
      | None => None
      end
  end.

(** StrDecimalLiteral *)
Definition readDecimal (s : string) : option float :=
  let '(neg, r) := readSign s in
  if String.eqb r "Infinity"
  then Some (if neg then PrimFloat.neg_infinity else PrimFloat.infinity)
  else readUnsignedDecimal neg r.

(** NonDecimalIntegerLiteral: [0x], [0o], [0b] in either case, unsigned. *)
Definition readNonDecimal (s : string) : option float :=
  match s with
  | String "0" (String c r) =>
      let base :=
        if Ascii.eqb c "x" || Ascii.eqb c "X" then Some 16%N
        else if Ascii.eqb c "o" || Ascii.eqb c "O" then Some 8%N
        else if Ascii.eqb c "b" || Ascii.eqb c "B" then Some 2%N
        else None in
      match base with
      | Some b =>
          match readDigits b 0 0 r with
          | (_, O, _) => None
          | (v, _, EmptyString) => Some (ofDecimal false v 0)
          | _ => None
          end
      | None => None
      end
  | _ => None
  end.

(** [Number(s)] on a string (StringToNumber): surrounding white space is
    skipped, the empty string is [+0], and anything outside the
    StringNumericLiteral grammar is NaN. *)
Definition Number (s : string) : float :=
  let t := JsString.trim s in
  if JsString.isEmpty t then PrimFloat.zero
  else
    match readNonDecimal t with
    | Some v => v
    | None =>
        match readDecimal t with
        | Some v => v
        | None => PrimFloat.nan
        end
    end.

End JsNumber.

(** ** Settings, events and host commands *)

(** [settings.interval] is typed [number | string]. *)
Inductive IntervalValue :=
  | IntervalNumber (x : float)
  | IntervalString (s : string).

(** [PythonServiceSettings]; every property is optional. *)
Record PythonServiceSettings := {
  path : option string;
  value1 : option string;
  image1 : option string;
  value2 : option string;
  image2 : option string;
  displayValues : option bool;
  useVenv : option bool;
  venvPath : option string;
  interval : option IntervalValue;
  settings_id : option string
}.

(** The part of an SDK event the plugin reads: [ev.action.id],
    [ev.action.manifestId] and [ev.payload.settings]. *)
Record Event := {
  action_id : string;
  action_manifestId : string;
  payload_settings : PythonServiceSettings
}.

(** Calls on [ev.action], tagged with the id of the key they address. *)
Inductive HostCmd :=
  | SetImage (key image : string)
  | SetTitle (key title : string)
  | ShowAlert (key : string).

Definition truthyBool (o : option bool) : bool :=
  match o with Some b => b | None => false end.

(** ** The Node modules the plugin calls: [fs] and [path] *)

Class NodeFs := {
  (** [fs.existsSync(p)] *)
  existsSync : string -> bool;
  (** [fs.statSync(p).isFile()]; [None] when [statSync] throws. *)
  statSync_isFile : string -> option bool
}.

Class NodePath := {
  dirname : string -> string;
  basename : string -> string
}.

Section VenvPath.
Context `{NodeFs} `{NodePath}.

(** The same method body appears in all three classes. The [try] turns a
    throwing [statSync] into the fall-through [return venvPath]. *)
Definition normalizeVenvPath (venvPath : string) : string :=
  if existsSync venvPath then
    match statSync_isFile venvPath with
    | Some true => dirname venvPath
    | Some false | None => venvPath
    end
  else venvPath.

End VenvPath.

(** ** The timer table of the runtime *)

(** A pending interval: the event its callback closes over (the callback is
    always [() => this.executeAction(ev)]) and its period in milliseconds. *)
Record Timeout := {
  timeout_ev : Event;
  timeout_ms : float
}.

(** Handles are allocated in increasing order and never reused. *)
Record Timers := {
  live : gmap nat Timeout;
  fresh : nat
}.

Definition setInterval (ev : Event) (ms : float) (T : Timers)
  : nat * Timers :=
  (fresh T,
   {| live := <[fresh T := {| timeout_ev := ev; timeout_ms := ms |}]> (live T);
      fresh := S (fresh T) |}).

Definition clearInterval (h : nat) (T : Timers) : Timers :=
  {| live := delete h (live T); fresh := fresh T |}.

(** ** python-bg-service.ts *)

(** A three-line key title: ["a\nb\nc"] in the source. *)
Definition title3 (a b c : string) : string :=
  a ++ String JsString.LF (b ++ String JsString.LF c).

(** [pythonErrorMap], in the order a [for ... in] loop visits its keys:
    insertion order, since no key is an array index. *)
Definition pythonErrorMap : list (string * string) :=
  [ ("SyntaxError", title3 "Python" "Syntax" "Error");
    ("NameError", title3 "Python" "Name" "Error");
    ("TypeError", title3 "Python" "Type" "Error");
    ("ValueError", title3 "Python" "Value" "Error");
    ("ZeroDivisionError", title3 "Python" "ZeroDiv" "Error");
    ("IndexError", title3 "Python" "Index" "Error");
    ("KeyError", title3 "Python" "Key" "Error");
    ("AttributeError", title3 "Python" "Attribute" "Error");
    ("ImportError", title3 "Python" "Import" "Error");
    ("No such file or directory", title3 "Python" "File" "Error");
    ("ModuleNotFoundError", title3 "Python" "Module" "Error");
    ("RuntimeError", title3 "Python" "Runtime" "Error");
    ("MemoryError", title3 "Python" "Memory" "Error");
    ("OverflowError", title3 "Python" "Overflow" "Error");
    ("SystemError", title3 "Python" "System" "Error");
    ("Microsoft Store", title3 "Python" "not found" "Error") ].

Inductive ServiceState := running | stopped.

Record TrackedAction := {
  tracked_id : string;
  tracked_ev : Event;
  timerId : option nat
}.

(** [PythonServiceSettings & { interval: number; displayValues: boolean;
    useVenv: boolean }]: the spread object plus the three overridden
    properties. *)
Record NormalizedSettings := {
  spread : PythonServiceSettings;
  n_interval : float;
  n_displayValues : bool;
  n_useVenv : bool
}.

(** The fields of [class PythonBackgroundService], together with the timer
    table its methods act on. *)
Record PythonBackgroundService := {
  trackedActions : list TrackedAction;
  state : ServiceState;
  timers : Timers
}.

(** [export const pyBGService = new PythonBackgroundService()] *)
Definition pyBGService : PythonBackgroundService :=
  {| trackedActions := [];
     state := stopped;
     timers := {| live := ∅; fresh := 0 |} |}.

Definition normalizeSettings (settings : PythonServiceSettings)
  : NormalizedSettings :=
  let intervalRaw : option float :=
    match interval settings with
    | Some (IntervalString s) => Some (JsNumber.Number s)
    | Some (IntervalNumber x) => Some x
    | None => None
    end in
  let interval' :=
    match intervalRaw with
    | Some x => if JsNumber.isFinite x && (0 <? x)%float then x else 10%float
    | None => 10%float
    end in
  {| spread := settings;
     n_interval := interval';
     n_displayValues := truthyBool (displayValues settings);
     n_useVenv := truthyBool (useVenv settings) |}.

Definition createTimer (ev : Event) (T : Timers) : nat * Timers :=
  let settings := normalizeSettings (payload_settings ev) in
  let intervalSeconds := n_interval settings in
  setInterval ev (intervalSeconds * 1000)%float T.

(** [if (x.timerId) clearInterval(x.timerId)] *)
Definition clearIfSet (o : option nat) (T : Timers) : Timers :=
  match o with
  | Some h => clearInterval h T
  | None => T
  end.

Definition findIndex (key : string) (l : list TrackedAction)
  : option (nat * TrackedAction) :=
  list_find (fun a => tracked_id a = key) l.

Definition registerAction (ev : Event) (s : PythonBackgroundService)
  : PythonBackgroundService :=
  match findIndex (action_id ev) (trackedActions s) with
  | Some (existingIndex, existing) =>
      let T1 := clearIfSet (timerId existing) (timers s) in
      (* { ...existing, ev } *)
      let updatedAction :=
        {| tracked_id := tracked_id existing;
           tracked_ev := ev;
           timerId := timerId existing |} in
      match state s with
      | running =>
          let '(h, T2) := createTimer ev T1 in
          {| trackedActions :=
               <[existingIndex :=
                   {| tracked_id := tracked_id updatedAction;
                      tracked_ev := tracked_ev updatedAction;
                      timerId := Some h |}]> (trackedActions s);
             state := state s;
             timers := T2 |}
      | stopped =>
          {| trackedActions := <[existingIndex := updatedAction]> (trackedActions s);
             state := state s;
             timers := T1 |}
      end
  | None =>
      {| trackedActions :=
           trackedActions s
           ++ [ {| tracked_id := action_id ev; tracked_ev := ev; timerId := None |} ];
         state := state s;
         timers := timers s |}
  end.

Definition unregisterAction (ev : Event) (s : PythonBackgroundService)
  : PythonBackgroundService :=
  match findIndex (action_id ev) (trackedActions s) with
  | Some (index, tracked) =>
      {| trackedActions := delete index (trackedActions s);
         state := state s;
         timers := clearIfSet (timerId tracked) (timers s) |}
  | None => s
  end.

(** The [forEach] of [start]: entries are visited in table order and each
    one is rearmed in place. *)
Fixpoint startEach (l : list TrackedAction) (T : Timers)
  : list TrackedAction * Timers :=
  match l with
  | [] => ([], T)
  | tracked :: rest =>
      let T1 := clearIfSet (timerId tracked) T in
      let '(h, T2) := createTimer (tracked_ev tracked) T1 in
      let '(rest', T3) := startEach rest T2 in
      ({| tracked_id := tracked_id tracked;
          tracked_ev := tracked_ev tracked;
          timerId := Some h |} :: rest', T3)
  end.

Definition start (ev : Event) (s : PythonBackgroundService)
  : PythonBackgroundService * list HostCmd :=
  let '(l, T) := startEach (trackedActions s) (timers s) in
  ({| trackedActions := l; state := running; timers := T |},
   [SetImage (action_id ev) "imgs/actions/pyServiceRunning.png"]).

(** The [forEach] of [stop]. *)
Fixpoint stopEach (l : list TrackedAction) (T : Timers)
  : list TrackedAction * Timers :=
  match l with
  | [] => ([], T)
  | tracked :: rest =>
      let '(tracked', T1) :=
        match timerId tracked with
        | Some h =>
            ({| tracked_id := tracked_id tracked;
                tracked_ev := tracked_ev tracked;
                timerId := None |}, clearInterval h T)
        | None => (tracked, T)
        end in
      let '(rest', T2) := stopEach rest T1 in
      (tracked' :: rest', T2)
  end.

Definition stop (ev : Event) (s : PythonBackgroundService)
  : PythonBackgroundService * list HostCmd :=
  let '(l, T) := stopEach (trackedActions s) (timers s) in
  ({| trackedActions := l; state := stopped; timers := T |},
   [SetImage (action_id ev) "imgs/actions/pyServiceStopped.png"]).

Definition getState (s : PythonBackgroundService) : ServiceState := state s.

Definition defaultServiceImage : string := "imgs/actions/pyServiceIcon.png".

(** [settings.imageN && output === (settings.valueN ?? "")] *)
Definition pairMatches (image value : option string) (output : string) : bool :=
  JsString.truthy image && String.eqb output (default "" value).

(** The image chosen by the [if / else if / else] of the stdout handler. *)
Definition stdoutImage (image1 value1 image2 value2 : option string)
  (idle output : string) : string :=
  if pairMatches image1 value1 output then default "" image1
  else if pairMatches image2 value2 output then default "" image2
  else idle.

(** [pythonProcess.stdout.on("data", ...)] in [executeAction]. *)
Definition stdoutHandler (settings : NormalizedSettings) (ev : Event)
  (data : string) : list HostCmd :=
  let output := JsString.trim data in
  (if n_displayValues settings then [SetTitle (action_id ev) output] else [])
  ++ [SetImage (action_id ev)
        (stdoutImage (image1 (spread settings)) (value1 (spread settings))
           (image2 (spread settings)) (value2 (spread settings))
           defaultServiceImage output)].

Definition otherIssue : string := title3 "python" "other" "issue".

(** The [for (const key in pythonErrorMap)] loop with its [break]. *)
Fixpoint classify (table : list (string * string)) (errorString : string)
  : string :=
  match table with
  | [] => otherIssue
  | (key, title) :: rest =>
      if JsString.includes errorString key then title
      else classify rest errorString
  end.

Definition errorStringOf (data : string) : string :=
  JsString.replaceNewlines (JsString.trim data).

(** [pythonProcess.stderr?.on("data", ...)] in [executeAction]. *)
Definition stderrHandler (ev : Event) (data : string) : list HostCmd :=
  let errorString := errorStringOf data in
  [ SetImage (action_id ev) "imgs/actions/pyServiceIconFail.png";
    SetTitle (action_id ev) (classify pythonErrorMap errorString);
    ShowAlert (action_id ev) ].

(** ** actions/python-service.ts *)

Module PythonService.
Section WithNode.
Context `{NodeFs} `{NodePath}.

Definition getFileNameFromPath (path : string) : string :=
  JsString.afterLastSlash path.

(** Truthiness of a number: neither NaN nor a zero. *)
Definition truthyNumber (x : float) : bool :=
  negb (PrimFloat.is_nan x || PrimFloat.is_zero x).

Definition getInterval (value : option IntervalValue) : option float :=
  match value with
  | Some (IntervalNumber x) =>
      if JsNumber.isFinite x && (0 <? x)%float then Some x else None
  | Some (IntervalString s) =>
      let parsed := JsNumber.Number (JsString.trim s) in
      if JsNumber.isFinite parsed && (0 <? parsed)%float
      then Some parsed else None
  | None => None
  end.

(** [if (settings.path && interval)] *)
Definition checkSettingsComplete (settings : PythonServiceSettings) : bool :=
  let interval := getInterval (interval settings) in
  JsString.truthy (path settings)
  && match interval with
     | Some x => truthyNumber x
     | None => false
     end.

(** The image and title both [onWillAppear] and [onDidReceiveSettings]
    set before they reach the registry. *)
Definition showFile (ev : Event) : list HostCmd :=
  let settings := payload_settings ev in
  match path settings with
  | Some p =>
      if negb (JsString.isEmpty p) && JsString.includes p ".py" then
        let venvname :=
          match venvPath settings with
          | Some v =>
              if truthyBool (useVenv settings) && negb (JsString.isEmpty v)
              then "venv:" ++ String JsString.LF
                     (" " ++ basename (normalizeVenvPath v)
                          ++ String JsString.LF "")
              else ""
          | None => ""
          end in
        [ SetImage (action_id ev) "imgs/actions/pyServiceIcon.png";
          SetTitle (action_id ev) (venvname ++ getFileNameFromPath p) ]
      else []
  | None => []
  end.

Definition onWillAppear (ev : Event) (s : PythonBackgroundService)
  : PythonBackgroundService * list HostCmd :=
  let settings := payload_settings ev in
  (if checkSettingsComplete settings then registerAction ev s else s,
   showFile ev).

Definition onDidReceiveSettings (ev : Event) (s : PythonBackgroundService)
  : PythonBackgroundService * list HostCmd :=
  (registerAction ev s, showFile ev).

Definition onWillDisappear (ev : Event) (s : PythonBackgroundService)
  : PythonBackgroundService * list HostCmd :=
  (unregisterAction ev s, []).

Definition onKeyDown (ev : Event) (s : PythonBackgroundService)
  : PythonBackgroundService * list HostCmd :=
  match getState s with
  | running => stop ev s
  | stopped =>
      if checkSettingsComplete (payload_settings ev) then start ev s
      else (s, [ShowAlert (action_id ev)])
  end.

End WithNode.
End PythonService.

(** ** actions/python-script.ts *)

Module PythonScript.

Record PythonScriptSettings := {
  path : option string;
  value1 : option string;
  image1 : option string;
  value2 : option string;
  image2 : option string;
  displayValues : option bool;
  useVenv : option bool;
  venvPath : option string
}.

Definition defaultScriptImage : string :=
  "imgs/actions/gemini_icons/pyFileLoaded.png".

(** [pythonProcess.stdout.on("data", ...)] in [onKeyDown]; [key] is
    [ev.action.id]. *)
Definition stdoutHandler (settings : PythonScriptSettings) (key : string)
  (data : string) : list HostCmd :=
  let output := JsString.trim data in
  (if truthyBool (displayValues settings) then [SetTitle key output] else [])
  ++ [SetImage key
        (stdoutImage (image1 settings) (value1 settings)
           (image2 settings) (value2 settings) defaultScriptImage output)].

(** [pythonProcess.stderr?.on("data", ...)] in [onKeyDown]. *)
Definition stderrHandler (key : string) (data : string) : list HostCmd :=
  let errorString := errorStringOf data in
  [ SetImage key "imgs/actions/pyFilecheckFailed.png";
    SetTitle key (classify pythonErrorMap errorString);
    ShowAlert key ].

End PythonScript.

(** ** A concrete Node environment: [path.posix] and a finite file system *)

Module Posix.

Definition isSlash (c : ascii) : bool := Ascii.eqb c "/".

Fixpoint dropWhile {A} (f : A -> bool) (l : list A) : list A :=
  match l with
  | [] => []
  | x :: r => if f x then dropWhile f r else l
  end.

(** [path.posix.dirname]: the loop runs from the last index down to 1, so
    the first code unit is never inspected; trailing slashes are skipped,
    then the last component, and the cut is at the slash before it. *)
Definition dirname (p : string) : string :=
  match list_ascii_of_string p with
  | [] => "."
  | c0 :: rest =>
      let hasRoot := isSlash c0 in
      let r1 := dropWhile isSlash (rev rest) in
      let r2 := dropWhile (fun c => negb (isSlash c)) r1 in
      match r2 with
      | [] => if hasRoot then "/" else "."
      | _ :: before =>
          match before with
          | [] => if hasRoot then "//" else String c0 ""
          | _ => string_of_list_ascii (c0 :: rev before)
          end
      end
  end.

(** [path.posix.basename] without a suffix: the last component, trailing
    slashes ignored. *)
Definition basename (p : string) : string :=
  let r1 := dropWhile isSlash (rev (list_ascii_of_string p)) in
  JsString.afterLastSlash (string_of_list_ascii (rev r1)).

#[export] Instance posixPath : NodePath := Build_NodePath dirname basename.

End Posix.

(** A file system holding the given regular files and directories, on which
    [statSync] throws exactly for the paths that do not exist. *)
Definition finiteFs (files dirs : list string) : NodeFs :=
  {| existsSync p := bool_decide (p ∈ files) || bool_decide (p ∈ dirs);
     statSync_isFile p :=
       if bool_decide (p ∈ files) then Some true
       else if bool_decide (p ∈ dirs) then Some false
       else None |}.


(** ** Spawning the interpreter *)

(** [os.platform() === "win32"] *)
Class NodeOs := {
  isWindows : bool
}.

(** The two further [path] functions [createChildProcess] calls:
    [path.join(a, b, c)] and [path.win32.normalize(p)]. *)
Class NodePathJoin := {
  join3 : string -> string -> string -> string;
  win32_normalize : string -> string
}.

(** What [spawn(executable, args, options)] is asked for; [windowsHide]
    is false when no options are passed. *)
Record SpawnRequest := {
  executable : string;
  spawnArgs : list string;
  windowsHide : bool
}.

Section Spawn.
Context `{NodeFs} `{NodePath} `{NodeOs} `{NodePathJoin}.

(** The same method body appears in [PythonBackgroundService] and in
    [PythonScript]. *)
Definition createChildProcess (useVenv : bool) (venvPath : option string)
  (scriptPath : string) : SpawnRequest :=
  let normalizedScriptPath :=
    if isWindows then win32_normalize scriptPath else scriptPath in
  if useVenv && JsString.truthy venvPath then
    let normalizedVenvPath := normalizeVenvPath (default "" venvPath) in
    if isWindows then
      {| executable := join3 normalizedVenvPath "Scripts" "python.exe";
         spawnArgs := [normalizedScriptPath];
         windowsHide := true |}
    else
      {| executable := join3 normalizedVenvPath "bin" "python3";
         spawnArgs := [normalizedScriptPath];
         windowsHide := false |}
  else if isWindows then
    {| executable := "python";
       spawnArgs := [normalizedScriptPath];
       windowsHide := true |}
  else
    {| executable := "python3";
       spawnArgs := [normalizedScriptPath];
       windowsHide := false |}.

(** [PythonBackgroundService.executeAction]: the process it spawns, if any.
    Its stdout and stderr chunks go to [stdoutHandler] and [stderrHandler]
    with the normalized settings and the event of the call. *)
Definition executeAction (ev : Event) : option SpawnRequest :=
  let settings := normalizeSettings (payload_settings ev) in
  match path (spread settings) with
  | Some scriptPath =>
      if negb (JsString.isEmpty scriptPath) then
        Some (createChildProcess (n_useVenv settings)
                (venvPath (spread settings)) scriptPath)
      else None
  | None => None
  end.

(** One firing of the interval with handle [h]: the callback runs
    [executeAction] on the event it closed over. A handle that is not live
    does not fire. *)
Definition tick (h : nat) (s : PythonBackgroundService) : option SpawnRequest :=
  match live (timers s) !! h with
  | Some t => executeAction (timeout_ev t)
  | None => None
  end.

End Spawn.

(** ** actions/python-script.ts: the event handlers *)

Module PythonScriptAction.
Section WithNode.
Context `{NodeFs} `{NodePath} `{NodeOs} `{NodePathJoin}.

Definition getFileNameFromPath (path : string) : string :=
  JsString.afterLastSlash path.

(** [venvname], as both handlers build it. *)
Definition venvname (settings : PythonScript.PythonScriptSettings) : string :=
  match PythonScript.venvPath settings with
  | Some v =>
      if truthyBool (PythonScript.useVenv settings) && negb (JsString.isEmpty v)
      then "venv:" ++ String JsString.LF
             (" " ++ basename (normalizeVenvPath v) ++ String JsString.LF "")
      else ""
  | None => ""
  end.

Definition onWillAppear (key : string)
  (settings : PythonScript.PythonScriptSettings) : list HostCmd :=
  match PythonScript.path settings with
  | Some p =>
      if negb (JsString.isEmpty p) && JsString.includes p ".py" then
        [ SetImage key "imgs/actions/gemini_icons/pyFileLoaded.png";
          SetTitle key (venvname settings ++ getFileNameFromPath p) ]
      else []
  | None => []
  end.

Definition onDidReceiveSettings (key : string)
  (settings : PythonScript.PythonScriptSettings) : list HostCmd :=
  match PythonScript.path settings with
  | Some p =>
      if negb (JsString.isEmpty p) && JsString.includes p ".py" then
        [ SetImage key
            (if truthyBool (PythonScript.useVenv settings)
                && JsString.truthy (PythonScript.venvPath settings)
             then "imgs/actions/gemini_icons/pyVirtEnvActive.png"
             else "imgs/actions/gemini_icons/pyFileLoaded.png");
          SetTitle key (venvname settings ++ getFileNameFromPath p) ]
      else []
  | None => []
  end.

(** [onKeyDown]: the process it spawns, if any; the settings are used as
    they are, with [Boolean(settings.useVenv)]. *)
Definition onKeyDown (settings : PythonScript.PythonScriptSettings)
  : option SpawnRequest :=
  match PythonScript.path settings with
  | Some scriptPath =>
      if negb (JsString.isEmpty scriptPath) then
        Some (createChildProcess (truthyBool (PythonScript.useVenv settings))
                (PythonScript.venvPath settings) scriptPath)
      else None
  | None => None
  end.

End WithNode.
End PythonScriptAction.

(** ** Reachable registry states *)

(** One call on the registry, as the SDK handlers make them. *)
Inductive Call :=
  | CallRegister (ev : Event)
  | CallUnregister (ev : Event)
  | CallStart (ev : Event)
  | CallStop (ev : Event).

Definition call (c : Call) (s : PythonBackgroundService)
  : PythonBackgroundService :=
  match c with
  | CallRegister ev => registerAction ev s
  | CallUnregister ev => unregisterAction ev s
  | CallStart ev => fst (start ev s)
  | CallStop ev => fst (stop ev s)
  end.

(** The state after a sequence of calls, first call first. *)
Definition run (cs : list Call) (s : PythonBackgroundService)
  : PythonBackgroundService :=
  foldl (fun s c => call c s) s cs.

Inductive reachable : PythonBackgroundService -> Prop :=
  | reachable_init : reachable pyBGService
  | reachable_call c s : reachable s -> reachable (call c s).

(** The handles stored in the table, in table order. *)
Definition handles (l : list TrackedAction) : list nat := omap timerId l.

Definition ids (l : list TrackedAction) : list string := tracked_id <$> l.

(** What every reachable state satisfies. *)
Record consistent (s : PythonBackgroundService) : Prop := {
  consistent_ids : NoDup (ids (trackedActions s));
  consistent_handles : NoDup (handles (trackedActions s));
  consistent_live :
    forall h, is_Some (live (timers s) !! h) <-> h ∈ handles (trackedActions s);
  consistent_fresh :
    forall h, h ∈ handles (trackedActions s) -> h < fresh (timers s);
  consistent_stopped :
    state s = stopped -> handles (trackedActions s) = []
}.


(** ** Notions the statements below use *)

(** The pending interval [createTimer(ev)] installs. *)
Definition timeoutOf (ev : Event) : Timeout :=
  {| timeout_ev := ev;
     timeout_ms :=
       (n_interval (normalizeSettings (payload_settings ev)) * 1000)%float |}.

(** [key] occurs in [s]: some code units, then [key], then the rest. *)
Definition occursIn (key s : string) : Prop :=
  exists before after, s = before +:+ key +:+ after.

(** The number [normalizeSettings] reads off [settings.interval]:
    [Number(s)] for a string, the number itself otherwise. *)
Definition numericValue (v : option IntervalValue) : option float :=
  match v with
  | Some (IntervalString s) => Some (JsNumber.Number s)
  | Some (IntervalNumber x) => Some x
  | None => None
  end.

(** What [normalizeVenvPath] tests: the path exists and [statSync] reports
    a regular file. *)
Definition regularFile `{NodeFs} (p : string) : Prop :=
  existsSync p = true /\ statSync_isFile p = Some true.


(** The titles, and the images, a command list sets, in order. *)
Definition titles (cmds : list HostCmd) : list string :=
  omap (fun c => match c with SetTitle _ t => Some t | _ => None end) cmds.

Definition images (cmds : list HostCmd) : list string :=
  omap (fun c => match c with SetImage _ i => Some i | _ => None end) cmds.

(** The key a command addresses. *)
Definition cmdKey (c : HostCmd) : string :=
  match c with SetImage k _ | SetTitle k _ | ShowAlert k => k end.

(** A configured (value, image) pair matches the output: the image is set
    and not empty, and the output is the value (the empty string when the
    value is not set). *)
Definition pairMatch (image value : option string) (output img : string) : Prop :=
  image = Some img /\ img <> "" /\ output = default "" value.

(** Only white space (or nothing). *)
Fixpoint blank (s : string) : bool :=
  match s with
  | EmptyString => true
  | String c r => JsString.isWhiteSpace c && blank r
  end.

Definition firstIsWhiteSpace (s : string) : bool :=
  match s with
  | EmptyString => false
  | String c _ => JsString.isWhiteSpace c
  end.

Fixpoint lastIsWhiteSpace (s : string) : bool :=
  match s with
  | EmptyString => false
  | String c EmptyString => JsString.isWhiteSpace c
  | String _ r => lastIsWhiteSpace r
  end.

(** [path.join] on parts that need no normalizing, and an identity
    [path.win32.normalize], for a POSIX host. *)
Definition plainJoin : NodePathJoin :=
  {| join3 a b c := a +:+ "/" +:+ b +:+ "/" +:+ c;
     win32_normalize p := p |}.

Definition posixHost : NodeOs := {| isWindows := false |}.

(** ** Sample inputs *)

(** One virtual environment, with its marker file. *)
Definition venvFs : NodeFs :=
  finiteFs ["/home/u/venv/pyvenv.cfg"] ["/"; "/home"; "/home/u"; "/home/u/venv"].

Definition noSettings : PythonServiceSettings :=
  {| path := None; value1 := None; image1 := None; value2 := None;
     image2 := None; displayValues := None; useVenv := None;
     venvPath := None; interval := None; settings_id := None |}.

Definition withInterval (p : option string) (v : option IntervalValue)
  : PythonServiceSettings :=
  {| path := p; value1 := None; image1 := None; value2 := None;
     image2 := None; displayValues := None; useVenv := None;
     venvPath := None; interval := v; settings_id := None |}.

Definition keyEvent (key : string) (settings : PythonServiceSettings) : Event :=
  {| action_id := key;
     action_manifestId := "com.nicoohagedorn.pythonscriptdeck.service";
     payload_settings := settings |}.

(** Key K polls [/s.py] every 2 seconds; key A polls [/a.py] every 5. *)
Definition evK : Event :=
  keyEvent "K" (withInterval (Some "/s.py") (Some (IntervalNumber 2))).
Definition evA : Event :=
  keyEvent "A" (withInterval (Some "/a.py") (Some (IntervalString "5"))).
(** K again, after its interval was edited to 7.5 seconds. *)
Definition evK' : Event :=
  keyEvent "K" (withInterval (Some "/s.py") (Some (IntervalNumber 7.5))).
(** A key whose settings form is still empty. *)
Definition evEmpty : Event := keyEvent "E" noSettings.

(** A key that mirrors the output as its title and maps "ON" and "OFF" to
    two images. *)
Definition onOffSettings : PythonServiceSettings :=
  {| path := Some "/s.py"; value1 := Some "ON"; image1 := Some "on.png";
     value2 := Some "OFF"; image2 := Some "off.png";
     displayValues := Some true; useVenv := None; venvPath := None;
     interval := Some (IntervalNumber 2); settings_id := None |}.

(** K registered, then the service started: K holds handle 0. *)
Definition serviceRunningK : PythonBackgroundService :=
  run [CallRegister evK; CallStart evK] pyBGService.

(** K and A registered, then the service started. *)
Definition serviceRunningKA : PythonBackgroundService :=
  run [CallRegister evK; CallRegister evA; CallStart evK] pyBGService.

(** * Proofs *)

Local Open Scope list_scope.

(** ** The table as a list *)

Lemma handles_app l1 l2 : handles (l1 ++ l2) = handles l1 ++ handles l2.
Proof. apply omap_app. Qed.

Lemma handles_cons a l :
  handles (a :: l) = option_list (timerId a) ++ handles l.
Proof. unfold handles; simpl. by destruct (timerId a). Qed.

Lemma elem_of_option_list_handles h a l :
  h ∈ option_list (timerId a) ++ handles l <-> timerId a = Some h \/ h ∈ handles l.
Proof.
  rewrite elem_of_app. destruct (timerId a) as [k|]; simpl.
  - rewrite list_elem_of_singleton. split; intros [?|?]; auto; left; congruence.
  - rewrite elem_of_nil. split; intros [?|?]; auto; done.
Qed.

Lemma elem_of_handles_cons h a l :
  h ∈ handles (a :: l) <-> timerId a = Some h \/ h ∈ handles l.
Proof. rewrite handles_cons. apply elem_of_option_list_handles. Qed.

Lemma elem_of_handles_middle h l1 e l2 :
  h ∈ handles (l1 ++ e :: l2) <->
  timerId e = Some h \/ h ∈ handles l1 \/ h ∈ handles l2.
Proof. rewrite handles_app, elem_of_app, elem_of_handles_cons. tauto. Qed.

Lemma ids_cons a l : ids (a :: l) = tracked_id a :: ids l.
Proof. reflexivity. Qed.

Lemma ids_app l1 l2 : ids (l1 ++ l2) = ids l1 ++ ids l2.
Proof. apply fmap_app. Qed.

(** A hit of [findIndex] splits the table around the entry found. *)
Lemma findIndex_Some key l i e :
  findIndex key l = Some (i, e) ->
  exists l1 l2,
    l = l1 ++ e :: l2 /\ length l1 = i /\ tracked_id e = key
    /\ (key ∉ ids l1)
    /\ (forall x, <[i := x]> l = l1 ++ x :: l2)
    /\ delete i l = l1 ++ l2.
Proof.
  unfold findIndex. intros Hf.
  apply list_find_Some in Hf as (Hi & He & Hbefore).
  assert (Hlt : i < length l) by (by eapply lookup_lt_Some).
  exists (take i l), (drop (S i) l).
  split; [by rewrite take_drop_middle|].
  split; [rewrite length_take; lia|].
  split; [done|].
  split.
  - intros Hin. apply list_elem_of_fmap in Hin as (a & Ha & Hin).
    apply list_elem_of_lookup in Hin as (j & Hj).
    apply lookup_take_Some in Hj as [Hj Hji].
    by apply (Hbefore j a).
  - split; [intros x; by apply insert_take_drop|apply delete_take_drop].
Qed.

Lemma findIndex_None key l : findIndex key l = None <-> key ∉ ids l.
Proof.
  unfold findIndex, ids. rewrite list_find_None, Forall_forall, list_elem_of_fmap.
  split.
  - intros Hall (a & -> & Hin). by apply (Hall a).
  - intros Hno a Hin Heq. apply Hno. by exists a.
Qed.

Lemma findIndex_is_Some key l : is_Some (findIndex key l) <-> key ∈ ids l.
Proof.
  destruct (findIndex key l) as [p|] eqn:Hf.
  - split; [intros _|by eauto]. destruct p as [i e].
    apply findIndex_Some in Hf as (l1 & l2 & -> & _ & <- & _).
    rewrite ids_app. set_solver.
  - apply findIndex_None in Hf. split; [by intros [? ?]|done].
Qed.

(** ** The timer table *)

Lemma createTimer_spec ev T h T' :
  createTimer ev T = (h, T') ->
  h = fresh T
  /\ fresh T' = S (fresh T)
  /\ forall k, live T' !! k =
        if decide (fresh T = k) then Some (timeoutOf ev) else live T !! k.
Proof.
  unfold createTimer, setInterval. intros [= <- <-]. cbn [live fresh].
  repeat split. intros k. apply lookup_insert.
Qed.

Lemma clearIfSet_fresh o T : fresh (clearIfSet o T) = fresh T.
Proof. by destruct o. Qed.

Lemma clearIfSet_live o T h :
  live (clearIfSet o T) !! h =
  if decide (o = Some h) then None else live T !! h.
Proof.
  destruct o as [h'|]; unfold clearIfSet, clearInterval; cbn [live].
  - rewrite lookup_delete. repeat case_decide; congruence.
  - case_decide; congruence.
Qed.

#[local] Arguments createTimer : simpl never.
#[local] Arguments clearIfSet : simpl never.
#[local] Arguments normalizeSettings : simpl never.

(** [start]'s loop hands out the next [length l] handles in table order,
    keeps ids and events, and leaves live exactly the timers that were
    live and not in the table, plus the new ones. *)
Lemma startEach_spec l : forall T l' T',
  startEach l T = (l', T') ->
  (forall h, h ∈ handles l -> h < fresh T) ->
  handles l' = seq (fresh T) (length l)
  /\ ids l' = ids l
  /\ tracked_ev <$> l' = tracked_ev <$> l
  /\ fresh T' = fresh T + length l
  /\ (forall h, live T' !! h =
        if decide (fresh T <= h < fresh T + length l)
        then (fun a => timeoutOf (tracked_ev a)) <$> l !! (h - fresh T)
        else if decide (h ∈ handles l) then None else live T !! h).
Proof.
  induction l as [|a l IH]; intros T l' T' Hs Hlt; cbn [startEach] in Hs.
  - simplify_eq. split_and!; [done|done|done|simpl; lia|].
    intros h. rewrite decide_False by (simpl; lia).
    rewrite decide_False by set_solver. done.
  - destruct (createTimer _ _) as [h0 T2] eqn:Hc.
    destruct (startEach l T2) as [rest' T3] eqn:Hrest. simplify_eq.
    apply createTimer_spec in Hc as (-> & Hf2 & Hl2).
    rewrite clearIfSet_fresh in *.
    assert (Ha : forall k, timerId a = Some k -> k < fresh T).
    { intros k Hk. apply Hlt. rewrite handles_cons, Hk. set_solver. }
    assert (Hl' : forall k, k ∈ handles l -> k < fresh T).
    { intros k Hk. apply Hlt. rewrite handles_cons. set_solver. }
    apply IH in Hrest as (Hh & Hi & He & Hf & Hl).
    2:{ intros h Hin. apply Hl' in Hin. lia. }
    rewrite Hf2 in *.
    split; [by rewrite handles_cons; simpl; rewrite Hh|].
    split; [by rewrite !ids_cons, Hi|].
    split; [by rewrite !fmap_cons, He|].
    split; [simpl; lia|].
    intros h. rewrite Hl, Hl2, clearIfSet_live, handles_cons. simpl length.
    destruct (decide (fresh T = h)) as [<-|Hne].
    + repeat case_decide; try lia.
      * exfalso. match goal with H : _ ∈ handles l |- _ => apply Hl' in H; lia end.
      * by rewrite Nat.sub_diag.
    + destruct (decide (S (fresh T) <= h < S (fresh T) + length l)) as [Hr|Hr].
      * rewrite decide_True by lia.
        replace (h - fresh T) with (S (h - S (fresh T))) by lia. done.
      * rewrite (decide_False (P := fresh T <= h < _)) by lia.
        pose proof (elem_of_option_list_handles h a l) as Hmem.
        repeat case_decide; try done; tauto.
Qed.

(** [stop]'s loop clears every handle of the table and nothing else. *)
Lemma stopEach_spec l : forall T l' T',
  stopEach l T = (l', T') ->
  Forall (fun a => timerId a = None) l'
  /\ ids l' = ids l
  /\ tracked_ev <$> l' = tracked_ev <$> l
  /\ fresh T' = fresh T
  /\ (forall h, live T' !! h =
        if decide (h ∈ handles l) then None else live T !! h).
Proof.
  induction l as [|a l IH]; intros T l' T' Hs; cbn [stopEach] in Hs.
  - simplify_eq. split_and!; try done.
  - destruct (timerId a) as [k|] eqn:Hk.
    + destruct (stopEach l (clearInterval k T)) as [rest' T2] eqn:Hrest.
      simplify_eq. apply IH in Hrest as (Hn & Hi & He & Hf & Hl).
      split_and!.
      * by constructor.
      * by rewrite !ids_cons, Hi.
      * by rewrite !fmap_cons, He.
      * done.
      * intros h. rewrite Hl.
        change (live (clearInterval k T)) with (delete k (live T)).
        rewrite lookup_delete.
        pose proof (elem_of_handles_cons h a l) as Hmem. rewrite Hk in Hmem.
        repeat case_decide; try done; try (exfalso; naive_solver).
    + destruct (stopEach l T) as [rest' T2] eqn:Hrest.
      simplify_eq. apply IH in Hrest as (Hn & Hi & He & Hf & Hl).
      split_and!.
      * by constructor.
      * by rewrite !ids_cons, Hi.
      * by rewrite !fmap_cons, He.
      * done.
      * intros h. rewrite Hl.
        pose proof (elem_of_handles_cons h a l) as Hmem. rewrite Hk in Hmem.
        repeat case_decide; try done; exfalso; naive_solver.
Qed.

Lemma handles_nil_iff l :
  handles l = [] <-> Forall (fun a => timerId a = None) l.
Proof.
  induction l as [|a l IH]; [by split|].
  rewrite handles_cons, Forall_cons, <- IH.
  destruct (timerId a); simpl; split; try done; by intros [? ?].
Qed.

(** ** Every reachable state is consistent *)

Lemma consistent_init : consistent pyBGService.
Proof.
  split; cbn [pyBGService trackedActions state timers live fresh].
  - constructor.
  - constructor.
  - intros k. rewrite lookup_empty. split; [by intros [? ?]|].
    intros Hin. by apply elem_of_nil in Hin.
  - intros k Hin. by apply elem_of_nil in Hin.
  - done.
Qed.

Lemma consistent_start ev s : consistent s -> consistent (fst (start ev s)).
Proof.
  intros [Hids Hh Hlive Hfresh Hstop]. unfold start.
  destruct (startEach _ _) as [l T] eqn:Hs. cbn [fst].
  apply startEach_spec in Hs as (Hh' & Hi & _ & Hf & Hl); [|done].
  split; cbn [trackedActions state timers].
  - by rewrite Hi.
  - rewrite Hh'. apply NoDup_seq.
  - intros k. rewrite Hl, Hh', elem_of_seq.
    case_decide as Hd.
    + split; [done|intros _].
      destruct (lookup_lt_is_Some_2 (trackedActions s) (k - fresh (timers s)))
        as [a Ha]; [lia|]. rewrite Ha. by eauto.
    + case_decide as Hd'; [split; [by intros [? ?]|lia]|].
      rewrite Hlive. split; [done|lia].
  - intros k. rewrite Hh', elem_of_seq. lia.
  - done.
Qed.

Lemma consistent_stop ev s : consistent s -> consistent (fst (stop ev s)).
Proof.
  intros [Hids Hh Hlive Hfresh Hstop]. unfold stop.
  destruct (stopEach _ _) as [l T] eqn:Hs. cbn [fst].
  apply stopEach_spec in Hs as (Hn & Hi & _ & Hf & Hl).
  apply handles_nil_iff in Hn.
  split; cbn [trackedActions state timers]; rewrite ?Hn, ?Hi; try done.
  - constructor.
  - intros k. rewrite Hl, elem_of_nil. case_decide as Hd.
    + split; [by intros [? ?]|done].
    + rewrite Hlive. tauto.
  - intros k Hin. by apply elem_of_nil in Hin.
Qed.

Lemma NoDup_handles_middle l1 e l2 k :
  NoDup (handles (l1 ++ e :: l2)) -> timerId e = Some k ->
  (k ∉ handles l1) /\ (k ∉ handles l2) /\ NoDup (handles l1 ++ handles l2).
Proof.
  rewrite handles_app, handles_cons. intros Hnd He. rewrite He in Hnd.
  simpl in Hnd.
  apply NoDup_app in Hnd as (H1 & H12 & H2).
  apply NoDup_cons in H2 as [Hk H2].
  split_and!; [|done|].
  - intros Hin. apply (H12 k Hin). apply elem_of_cons. by left.
  - apply NoDup_app. split_and!; [done| |done].
    intros x Hx Hx2. apply (H12 x Hx). apply elem_of_cons. by right.
Qed.

Lemma NoDup_handles_remove l1 e l2 :
  NoDup (handles (l1 ++ e :: l2)) -> NoDup (handles (l1 ++ l2)).
Proof.
  rewrite !handles_app, handles_cons. intros Hnd.
  apply NoDup_app in Hnd as (H1 & H12 & H2).
  apply NoDup_app in H2 as (_ & _ & H2).
  apply NoDup_app. split_and!; [done| |done].
  intros x Hx Hx2. apply (H12 x Hx). apply elem_of_app. by right.
Qed.

Lemma NoDup_handles_replace l1 e x l2 h :
  NoDup (handles (l1 ++ e :: l2)) -> timerId x = Some h ->
  h ∉ handles l1 -> h ∉ handles l2 ->
  NoDup (handles (l1 ++ x :: l2)).
Proof.
  intros Hnd Hx H1 H2. pose proof (NoDup_handles_remove _ _ _ Hnd) as Hrm.
  rewrite handles_app in Hrm. apply NoDup_app in Hrm as (A & B & C).
  rewrite handles_app, handles_cons, Hx. simpl.
  apply NoDup_app. split_and!; [done| |].
  - intros y Hy Hy'. apply elem_of_cons in Hy' as [->|Hy']; [done|].
    by apply (B y Hy).
  - apply NoDup_cons. by split.
Qed.

Lemma consistent_register ev s : consistent s -> consistent (registerAction ev s).
Proof.
  intros [Hids Hh Hlive Hfresh Hstop]. unfold registerAction.
  destruct (findIndex _ _) as [[i e]|] eqn:Hfind.
  - apply findIndex_Some in Hfind as (l1 & l2 & Hl & _ & Hkey & Hnot & Hins & _).
    rewrite Hl in *.
    destruct (state s) eqn:Hstate.
    + destruct (createTimer _ _) as [h0 T2] eqn:Hc.
      apply createTimer_spec in Hc as (-> & Hf2 & Hl2).
      rewrite clearIfSet_fresh in *.
      assert (Hnew1 : fresh (timers s) ∉ handles l1).
      { intros Hin. assert (fresh (timers s) < fresh (timers s)); [|lia].
        apply Hfresh, elem_of_handles_middle. tauto. }
      assert (Hnew2 : fresh (timers s) ∉ handles l2).
      { intros Hin. assert (fresh (timers s) < fresh (timers s)); [|lia].
        apply Hfresh, elem_of_handles_middle. tauto. }
      split; cbn [trackedActions state timers]; rewrite ?Hins.
      * rewrite ids_app, ids_cons in Hids |- *. exact Hids.
      * by eapply NoDup_handles_replace.
      * intros k. rewrite Hl2, clearIfSet_live, elem_of_handles_middle.
        cbn [timerId].
        specialize (Hlive k). rewrite elem_of_handles_middle in Hlive.
        case_decide as Hd; [subst k; split; [tauto|by eauto]|].
        case_decide as Hd'.
        -- eapply NoDup_handles_middle in Hh as (H1 & H2 & _); [|done].
           split; [by intros [? ?]|]. intros [?|[?|?]]; [congruence|done|done].
        -- rewrite Hlive. split; [tauto|].
           intros [?|[?|?]]; [congruence|tauto|tauto].
      * intros k. rewrite Hf2, elem_of_handles_middle. cbn [timerId].
        intros [[= <-]|Hin]; [lia|].
        assert (k < fresh (timers s)); [|lia].
        apply Hfresh, elem_of_handles_middle. tauto.
      * done.
    + specialize (Hstop eq_refl).
      assert (He : timerId e = None).
      { rewrite handles_app, handles_cons in Hstop.
        destruct (timerId e); [|done].
        by apply app_eq_nil in Hstop as [_ ?]. }
      assert (Hsame : handles (l1 ++ {| tracked_id := tracked_id e;
                 tracked_ev := ev; timerId := timerId e |} :: l2)
               = handles (l1 ++ e :: l2)).
      { by rewrite !handles_app, !handles_cons. }
      rewrite He in *.
      split; cbn [trackedActions state timers]; rewrite ?Hins, ?Hsame; try done.
      rewrite ids_app, ids_cons in Hids |- *. exact Hids.
  - apply findIndex_None in Hfind.
    assert (Hsame : handles (trackedActions s ++
               [{| tracked_id := action_id ev; tracked_ev := ev; timerId := None |}])
             = handles (trackedActions s)).
    { rewrite handles_app, handles_cons. simpl. by rewrite app_nil_r. }
    split; cbn [trackedActions state timers]; rewrite ?Hsame; try done.
    rewrite ids_app. apply NoDup_app. split_and!; [done| |apply NoDup_singleton].
    intros x Hx Hx'. apply list_elem_of_singleton in Hx'. by subst x.
Qed.

Lemma consistent_unregister ev s :
  consistent s -> consistent (unregisterAction ev s).
Proof.
  intros Hc. unfold unregisterAction.
  destruct (findIndex _ _) as [[i e]|] eqn:Hfind; [|done].
  destruct Hc as [Hids Hh Hlive Hfresh Hstop].
  apply findIndex_Some in Hfind as (l1 & l2 & Hl & _ & _ & _ & _ & Hdel).
  rewrite Hl in *.
  split; cbn [trackedActions state timers]; rewrite ?Hdel.
  - rewrite ids_app, ids_cons in Hids. rewrite ids_app.
    apply NoDup_app in Hids as (H1 & Hd & [_ H2]%NoDup_cons).
    apply NoDup_app. split_and!; [done| |done].
    intros x Hx Hx'. apply (Hd x Hx). apply elem_of_cons. by right.
  - by eapply NoDup_handles_remove.
  - intros k. rewrite clearIfSet_live, handles_app, elem_of_app.
    specialize (Hlive k). rewrite elem_of_handles_middle in Hlive.
    case_decide as Hd.
    + eapply NoDup_handles_middle in Hh as (H1 & H2 & _); [|done].
      split; [by intros [? ?]|tauto].
    + rewrite Hlive. tauto.
  - rewrite clearIfSet_fresh. intros k Hin. apply Hfresh.
    rewrite handles_app, elem_of_app in Hin.
    apply elem_of_handles_middle. tauto.
  - intros Hst. specialize (Hstop Hst).
    rewrite !handles_app, handles_cons in *.
    apply app_eq_nil in Hstop as [-> Hstop].
    by apply app_eq_nil in Hstop as [_ ->].
Qed.

Lemma consistent_call c s : consistent s -> consistent (call c s).
Proof.
  destruct c; simpl;
    auto using consistent_register, consistent_unregister,
      consistent_start, consistent_stop.
Qed.

Lemma reachable_consistent s : reachable s -> consistent s.
Proof.
  induction 1 as [|c s _ IH]; [apply consistent_init|by apply consistent_call].
Qed.

Lemma reachable_run cs s : reachable s -> reachable (run cs s).
Proof.
  revert s. induction cs as [|c cs IH]; intros s Hs; [done|].
  apply IH. by constructor.
Qed.

(** A handle is stored only while the service is running. *)
Lemma reachable_timer_running s a :
  reachable s -> a ∈ trackedActions s -> is_Some (timerId a) -> state s = running.
Proof.
  intros Hr Hin [h Hh]. apply reachable_consistent in Hr as [_ _ _ _ Hstop].
  destruct (state s); [done|].
  specialize (Hstop eq_refl). apply handles_nil_iff in Hstop.
  rewrite Forall_forall in Hstop. specialize (Hstop a Hin). congruence.
Qed.

(** ** Substrings *)

Lemma prefix_true key s :
  String.prefix key s = true <-> exists after, s = key +:+ after.
Proof.
  revert s. induction key as [|c key IH]; intros s.
  - destruct s; simpl; split; eauto.
  - destruct s as [|c' s]; simpl; [split; [done|by intros [? ?]]|].
    destruct (ascii_dec c c') as [<-|Hne].
    + rewrite IH. split.
      * intros [after ->]. by exists after.
      * intros [after Ha]. simpl in Ha. injection Ha as ->. by exists after.
    + split; [done|]. intros [after Ha]. simpl in Ha.
      injection Ha as Hc _. by destruct Hne.
Qed.

Lemma includes_occursIn s key :
  JsString.includes s key = true <-> occursIn key s.
Proof.
  unfold occursIn. induction s as [|c s IH]; cbn [JsString.includes].
  - rewrite orb_false_r, prefix_true. split.
    + intros [after Ha]. by exists "", after.
    + intros ([|? ?] & after & Ha); [by exists after|done].
  - rewrite orb_true_iff, IH, prefix_true. split.
    + intros [[after Ha]|(before & after & Ha)].
      * by exists "", after.
      * exists (String c before), after. simpl. by rewrite Ha.
    + intros ([|c' before] & after & Ha).
      * left. by exists after.
      * right. exists before, after. simpl in Ha. by injection Ha as _ ->.
Qed.

Lemma includes_false s key :
  JsString.includes s key = false <-> ~ occursIn key s.
Proof.
  rewrite <- includes_occursIn. by destruct (JsString.includes s key).
Qed.

(** ** What [classify] returns *)

Lemma classify_first_match table msg l1 key title l2 :
  table = l1 ++ (key, title) :: l2 ->
  Forall (fun kt => ~ occursIn kt.1 msg) l1 ->
  occursIn key msg ->
  classify table msg = title.
Proof.
  intros -> Hbefore Hkey. induction Hbefore as [|[k t] l1 Hk _ IH]; simpl.
  - apply includes_occursIn in Hkey. by rewrite Hkey.
  - apply includes_false in Hk. simpl in Hk. by rewrite Hk.
Qed.

Lemma classify_no_match table msg :
  Forall (fun kt => ~ occursIn kt.1 msg) table ->
  classify table msg = otherIssue.
Proof.
  induction 1 as [|[k t] l Hk _ IH]; simpl; [done|].
  apply includes_false in Hk. simpl in Hk. by rewrite Hk.
Qed.

(** ** Numbers: a strictly positive number is truthy *)

Lemma SFeqb_refl_finite s m e :
  SFeqb (S754_finite s m e) (S754_finite s m e) = true.
Proof.
  unfold SFeqb, SFcompare.
  destruct s; rewrite Z.compare_refl, Pos.compare_cont_refl; done.
Qed.

Lemma positive_truthy x :
  (0 <? x)%float = true -> PythonService.truthyNumber x = true.
Proof.
  unfold PythonService.truthyNumber, is_nan, is_zero.
  rewrite ltb_spec, !FloatAxioms.eqb_spec.
  change (Prim2SF 0) with (S754_zero false).
  change (Prim2SF zero) with (S754_zero false).
  destruct (Prim2SF x) as [s|s| |s m e]; try done.
  - by destruct s.
  - intros _. rewrite SFeqb_refl_finite. by destruct s.
Qed.

(** [checkSettingsComplete]: a non-empty path and an interval that is, or
    after trimming parses to, a finite number above zero. *)
Lemma checkSettingsComplete_true settings :
  PythonService.checkSettingsComplete settings = true <->
  JsString.truthy (path settings) = true
  /\ is_Some (PythonService.getInterval (interval settings)).
Proof.
  unfold PythonService.checkSettingsComplete.
  rewrite andb_true_iff.
  destruct (PythonService.getInterval (interval settings)) as [x|] eqn:Hg.
  - assert (Hpos : (0 <? x)%float = true).
    { unfold PythonService.getInterval in Hg.
      destruct (interval settings) as [[y|str]|]; [| |done].
      - destruct (JsNumber.isFinite y && (0 <? y)%float) eqn:Hc; [|done].
        apply andb_true_iff in Hc as [_ Hc]. congruence.
      - destruct (JsNumber.isFinite _ && _) eqn:Hc; [|done].
        apply andb_true_iff in Hc as [_ Hc]. congruence. }
    rewrite (positive_truthy x Hpos). split; intros [? _]; eauto.
  - split; [by intros [_ ?]|by intros [_ [? ?]]].
Qed.


(** * The claims *)

(** C1 (the code departs from it). The claimed invariant, a handle exists
    for an entry iff the service is running and the entry is tracked, is
    broken by [registerAction] on a brand-new id while the service runs:
    after K is registered, the service started and A registered, the state
    is reachable and running, K holds a handle, and the tracked entry A
    holds none. *)
Theorem registerAction_new_id_while_running_has_no_timer :
  let s := run [CallRegister evK; CallStart evK; CallRegister evA] pyBGService in
  reachable s
  /\ state s = running
  /\ trackedActions s =
       [ {| tracked_id := "K"; tracked_ev := evK; timerId := Some 0 |};
         {| tracked_id := "A"; tracked_ev := evA; timerId := None |} ]
  /\ exists a, a ∈ trackedActions s /\ timerId a = None.
Proof.
  split; [apply reachable_run, reachable_init|].
  split; [reflexivity|]. split; [reflexivity|].
  exists {| tracked_id := "A"; tracked_ev := evA; timerId := None |}.
  split; [|reflexivity].
  apply list_elem_of_further, list_elem_of_here.
Qed.

(** C2. Key-press toggle: a press while the service runs is exactly
    [stop], whatever the settings are; a press while it is stopped is
    exactly [start] when the settings are complete (a non-empty path and a
    valid interval), and otherwise leaves the registry untouched and only
    shows the alert. *)
Theorem onKeyDown_toggle ev s :
  (getState s = running ->
     PythonService.onKeyDown ev s = stop ev s
     /\ state (fst (PythonService.onKeyDown ev s)) = stopped)
  /\ (getState s = stopped ->
      JsString.truthy (path (payload_settings ev)) = true ->
      is_Some (PythonService.getInterval (interval (payload_settings ev))) ->
      PythonService.onKeyDown ev s = start ev s
      /\ state (fst (PythonService.onKeyDown ev s)) = running)
  /\ (getState s = stopped ->
      ~ (JsString.truthy (path (payload_settings ev)) = true
         /\ is_Some (PythonService.getInterval (interval (payload_settings ev)))) ->
      PythonService.onKeyDown ev s = (s, [ShowAlert (action_id ev)])).
Proof.
  unfold PythonService.onKeyDown. split_and!.
  - intros ->. split; [done|]. unfold stop. by destruct (stopEach _ _).
  - intros -> Hp Hi.
    assert (Hc : PythonService.checkSettingsComplete (payload_settings ev) = true)
      by (by apply checkSettingsComplete_true).
    rewrite Hc. split; [done|]. unfold start. by destruct (startEach _ _).
  - intros -> Hn.
    destruct (PythonService.checkSettingsComplete (payload_settings ev)) eqn:Hc;
      [|done].
    by apply checkSettingsComplete_true in Hc.
Qed.

Lemma onKeyDown_toggle_witness :
  (PythonService.onKeyDown evEmpty (fst (start evK pyBGService))
     = stop evEmpty (fst (start evK pyBGService))
   /\ state (fst (PythonService.onKeyDown evEmpty (fst (start evK pyBGService))))
      = stopped)
  /\ (PythonService.onKeyDown evK pyBGService = start evK pyBGService
      /\ state (fst (PythonService.onKeyDown evK pyBGService)) = running)
  /\ PythonService.onKeyDown evEmpty pyBGService
     = (pyBGService, [ShowAlert "E"]).
Proof.
  split; [|split].
  - exact (proj1 (onKeyDown_toggle evEmpty (fst (start evK pyBGService))) eq_refl).
  - refine (proj1 (proj2 (onKeyDown_toggle evK pyBGService)) eq_refl eq_refl _).
    vm_compute. eauto.
  - refine (proj2 (proj2 (onKeyDown_toggle evEmpty pyBGService)) eq_refl _).
    intros [Hp _]. vm_compute in Hp. discriminate.
Defined.

(** C3. Interval normalization: the normalized interval is the numeric
    value of the input when that value is finite and above zero, and 10 in
    every other case, so it is always finite and above zero; the other
    settings pass through. The inputs "5" and 7.5 give 5 and 7.5; the
    inputs 0, -3, "abc" and undefined give 10. *)
Theorem normalizeSettings_interval settings :
  (forall x, numericValue (interval settings) = Some x ->
     JsNumber.isFinite x = true -> (0 <? x)%float = true ->
     n_interval (normalizeSettings settings) = x)
  /\ ((forall x, numericValue (interval settings) = Some x ->
         ~ (JsNumber.isFinite x = true /\ (0 <? x)%float = true)) ->
      n_interval (normalizeSettings settings) = 10%float)
  /\ (JsNumber.isFinite (n_interval (normalizeSettings settings)) = true
      /\ (0 <? n_interval (normalizeSettings settings))%float = true)
  /\ spread (normalizeSettings settings) = settings.
Proof.
  unfold normalizeSettings, numericValue; cbn [n_interval spread].
  set (raw := match interval settings with
              | Some (IntervalNumber x) => Some x
              | Some (IntervalString s) => Some (JsNumber.Number s)
              | None => None
              end).
  split; [|split; [|split; [|done]]].
  - intros x Hx Hf Hp. assert (raw = Some x) as -> by (subst raw; by destruct (interval settings) as [[?|?]|]).
    by rewrite Hf, Hp.
  - intros Hno. destruct raw as [x|] eqn:Hraw; [|done].
    destruct (JsNumber.isFinite x && (0 <? x)%float) eqn:Hc; [|done].
    apply andb_true_iff in Hc. exfalso. apply (Hno x); [|done].
    subst raw. by destruct (interval settings) as [[?|?]|].
  - destruct raw as [x|]; [|by vm_compute].
    destruct (JsNumber.isFinite x && (0 <? x)%float) eqn:Hc; [|by vm_compute].
    by apply andb_true_iff in Hc.
Qed.

Lemma normalizeSettings_interval_witness :
  n_interval (normalizeSettings (withInterval None (Some (IntervalString "5"))))
    = 5%float
  /\ n_interval (normalizeSettings (withInterval None (Some (IntervalNumber 7.5))))
    = 7.5%float
  /\ n_interval (normalizeSettings (withInterval None (Some (IntervalNumber 0))))
    = 10%float
  /\ n_interval (normalizeSettings (withInterval None (Some (IntervalNumber (-3)))))
    = 10%float
  /\ n_interval (normalizeSettings (withInterval None (Some (IntervalString "abc"))))
    = 10%float
  /\ n_interval (normalizeSettings (withInterval None None)) = 10%float.
Proof.
  split_and!.
  - apply (normalizeSettings_interval
             (withInterval None (Some (IntervalString "5")))); reflexivity.
  - apply (normalizeSettings_interval
             (withInterval None (Some (IntervalNumber 7.5)))); reflexivity.
  - apply (normalizeSettings_interval
             (withInterval None (Some (IntervalNumber 0)))).
    intros x [= <-] [_ Hp]. vm_compute in Hp. discriminate.
  - apply (normalizeSettings_interval
             (withInterval None (Some (IntervalNumber (-3))))).
    intros x [= <-] [_ Hp]. vm_compute in Hp. discriminate.
  - apply (normalizeSettings_interval
             (withInterval None (Some (IntervalString "abc")))).
    intros x [= <-] [Hf _]. vm_compute in Hf. discriminate.
  - apply (normalizeSettings_interval (withInterval None None)).
    intros x [=].
Defined.

(** Deciding [occursIn] on closed strings. *)

Ltac occurs :=
  first [ apply includes_occursIn; vm_compute; reflexivity
        | apply includes_false; vm_compute; reflexivity ].

(** C4, as stated, fails: a chunk that mentions ValueError before the
    table reaches ZeroDivisionError is titled with the value-error label,
    although "ZeroDivisionError" occurs in it. *)
Lemma stderr_ZeroDivisionError_shadowed :
  let data := "ValueError: bad input; then ZeroDivisionError: division by zero" in
  occursIn "ZeroDivisionError" (errorStringOf data)
  /\ classify pythonErrorMap (errorStringOf data) = title3 "Python" "Value" "Error"
  /\ classify pythonErrorMap (errorStringOf data) <> title3 "Python" "ZeroDiv" "Error".
Proof.
  split_and!; [occurs|reflexivity|by vm_compute].
Qed.

(** C4 (amended). The title of a stderr chunk is the label of the first
    table key, in table order, that occurs in the trimmed, newline-collapsed
    message. So a message in which "ZeroDivisionError" occurs and none of
    the four keys before it (SyntaxError, NameError, TypeError, ValueError)
    occurs gets the division-error label, and a message in which no key
    occurs gets the "other issue" label. Both stderr handlers set the
    failure image, then this title, then the alert. *)
Theorem stderr_classification ev data :
  let msg := errorStringOf data in
  (occursIn "ZeroDivisionError" msg ->
   ~ occursIn "SyntaxError" msg -> ~ occursIn "NameError" msg ->
   ~ occursIn "TypeError" msg -> ~ occursIn "ValueError" msg ->
   classify pythonErrorMap msg = title3 "Python" "ZeroDiv" "Error")
  /\ (Forall (fun kt => ~ occursIn kt.1 msg) pythonErrorMap ->
      classify pythonErrorMap msg = otherIssue)
  /\ (forall l1 key title l2,
        pythonErrorMap = l1 ++ (key, title) :: l2 ->
        Forall (fun kt => ~ occursIn kt.1 msg) l1 ->
        occursIn key msg ->
        classify pythonErrorMap msg = title)
  /\ stderrHandler ev data =
       [ SetImage (action_id ev) "imgs/actions/pyServiceIconFail.png";
         SetTitle (action_id ev) (classify pythonErrorMap msg);
         ShowAlert (action_id ev) ]
  /\ PythonScript.stderrHandler (action_id ev) data =
       [ SetImage (action_id ev) "imgs/actions/pyFilecheckFailed.png";
         SetTitle (action_id ev) (classify pythonErrorMap msg);
         ShowAlert (action_id ev) ].
Proof.
  intros msg. split_and!; [| | |done|done].
  - intros Hz H1 H2 H3 H4.
    eapply (classify_first_match _ _ (take 4 pythonErrorMap)); [reflexivity| |done].
    repeat constructor; done.
  - apply classify_no_match.
  - intros l1 key title l2. apply classify_first_match.
Qed.

Lemma stderr_classification_witness :
  classify pythonErrorMap
    (errorStringOf "ZeroDivisionError: division by zero")
    = title3 "Python" "ZeroDiv" "Error"
  /\ classify pythonErrorMap (errorStringOf "Segmentation fault")
     = title3 "python" "other" "issue"
  /\ classify pythonErrorMap
       (errorStringOf "KeyError: 'x' (while handling OverflowError)")
     = title3 "Python" "Key" "Error".
Proof.
  split_and!.
  - apply (stderr_classification evK "ZeroDivisionError: division by zero");
      occurs.
  - apply (stderr_classification evK "Segmentation fault").
    repeat constructor; occurs.
  - pose proof (stderr_classification evK
                  "KeyError: 'x' (while handling OverflowError)") as H.
    cbv zeta in H. destruct H as (_ & _ & H & _).
    apply (H (take 6 pythonErrorMap) "KeyError" _ (drop 7 pythonErrorMap));
      [reflexivity| |occurs].
    repeat constructor; occurs.
Defined.

(** C5. Re-registering a tracked id while the service runs: the table
    keeps its length and its ids (still without duplicates); the entry is
    overwritten in place with the new event and a new handle; that handle
    is live with the period of the new settings, in milliseconds; the old
    handle, if the entry had one, was live and no longer is; every other
    entry and every other timer is as before. *)



(** [stop] from a consistent state leaves no handle in the table, no live
    timer, the same keys with the same events, and the state stopped. *)

Lemma stop_clears ev s :
  consistent s ->
  let s' := fst (stop ev s) in
  state s' = stopped
  /\ Forall (fun a => timerId a = None) (trackedActions s')
  /\ live (timers s') = ∅
  /\ ids (trackedActions s') = ids (trackedActions s)
  /\ tracked_ev <$> trackedActions s' = tracked_ev <$> trackedActions s.
Proof.
  intros Hc. unfold stop. destruct (stopEach _ _) as [l T] eqn:Hs.
  cbn [fst trackedActions state timers].
  apply stopEach_spec in Hs as (Hn & Hi & He & _ & Hl).
  split_and!; try done.
  apply map_eq. intros h. rewrite Hl, lookup_empty.
  case_decide as Hd; [done|].
  apply eq_None_not_Some. by rewrite (consistent_live s Hc).
Qed.

(** C6. [start] followed at once by [stop], from any reachable state and
    however many entries are tracked: the run-state is stopped, no tracked
    entry holds a handle, and no timer is live; the table still tracks the
    same keys, in the same order, with the same events. *)
Theorem start_then_stop_leaves_no_timer ev1 ev2 s :
  reachable s ->
  let s' := fst (stop ev2 (fst (start ev1 s))) in
  state s' = stopped
  /\ Forall (fun a => timerId a = None) (trackedActions s')
  /\ live (timers s') = ∅
  /\ length (trackedActions s') = length (trackedActions s)
  /\ ids (trackedActions s') = ids (trackedActions s)
  /\ tracked_ev <$> trackedActions s' = tracked_ev <$> trackedActions s.
Proof.
  intros Hr s'. apply reachable_consistent in Hr.
  destruct (stop_clears ev2 (fst (start ev1 s)) (consistent_start ev1 s Hr))
    as (Hst & Hn & Hl & Hi & He).
  assert (Hstart : ids (trackedActions (fst (start ev1 s))) = ids (trackedActions s)
            /\ tracked_ev <$> trackedActions (fst (start ev1 s))
               = tracked_ev <$> trackedActions s).
  { unfold start. destruct (startEach _ _) as [l T] eqn:Hs.
    cbn [fst trackedActions].
    apply startEach_spec in Hs as (_ & Hi' & He' & _); [done|].
    apply (consistent_fresh s Hr). }
  destruct Hstart as [Hi' He'].
  split_and!; try done.
  - rewrite <- (length_fmap tracked_id (trackedActions s')),
      <- (length_fmap tracked_id (trackedActions s)).
    fold (ids (trackedActions s')). fold (ids (trackedActions s)).
    subst s'. by rewrite Hi, Hi'.
  - subst s'. by rewrite Hi, Hi'.
  - subst s'. by rewrite He, He'.
Qed.

Lemma start_then_stop_leaves_no_timer_witness :
  let s' := fst (stop evK (fst (start evK serviceRunningKA))) in
  state s' = stopped
  /\ Forall (fun a => timerId a = None) (trackedActions s')
  /\ live (timers s') = ∅
  /\ length (trackedActions s') = length (trackedActions serviceRunningKA)
  /\ ids (trackedActions s') = ids (trackedActions serviceRunningKA)
  /\ tracked_ev <$> trackedActions s'
     = tracked_ev <$> trackedActions serviceRunningKA.
Proof.
  apply (start_then_stop_leaves_no_timer evK evK serviceRunningKA).
  apply reachable_run, reachable_init.
Defined.


(** C7. Virtual-environment path normalization, on a file system where the
    parent of a regular file is not a regular file: normalizing twice is
    normalizing once; a path that exists as a regular file (the marker
    file) is replaced by its [dirname]; any other path (a directory, a
    missing path, a path [statSync] throws on) is returned unchanged. *)




(** ** The stdout handlers *)

Lemma pairMatches_true image value output :
  pairMatches image value output = true <->
  exists img, pairMatch image value output img.
Proof.
  unfold pairMatches, pairMatch. rewrite andb_true_iff, String.eqb_eq.
  destruct image as [[|c img]|]; simpl.
  - split; [by intros [? _]|]. intros (img & [= <-] & Hne & _). done.
  - split; [intros [_ ->]; eauto|]. by intros (? & _ & _ & ->).
  - split; [by intros [? _]|]. by intros (? & ? & _).
Qed.

Lemma stdoutImage_cases image1 value1 image2 value2 idle output :
  (forall img, pairMatch image1 value1 output img ->
     stdoutImage image1 value1 image2 value2 idle output = img)
  /\ (forall img, ~ (exists i, pairMatch image1 value1 output i) ->
       pairMatch image2 value2 output img ->
       stdoutImage image1 value1 image2 value2 idle output = img)
  /\ (~ (exists i, pairMatch image1 value1 output i) ->
      ~ (exists i, pairMatch image2 value2 output i) ->
      stdoutImage image1 value1 image2 value2 idle output = idle).
Proof.
  unfold stdoutImage.
  destruct (pairMatches image1 value1 output) eqn:H1.
  - apply pairMatches_true in H1.
    split; [|split].
    + by intros img [-> _].
    + intros img Hn. by destruct Hn.
    + intros Hn. by destruct Hn.
  - assert (Hn1 : ~ exists i, pairMatch image1 value1 output i).
    { rewrite <- pairMatches_true. congruence. }
    destruct (pairMatches image2 value2 output) eqn:H2.
    + apply pairMatches_true in H2.
      split; [|split].
      * intros img Hm. destruct Hn1. eauto.
      * by intros img _ [-> _].
      * intros _ Hn. by destruct Hn.
    + assert (Hn2 : ~ exists i, pairMatch image2 value2 output i).
      { rewrite <- pairMatches_true. congruence. }
      split; [|split].
      * intros img Hm. destruct Hn1. eauto.
      * intros img _ Hm. destruct Hn2. eauto.
      * done.
Qed.

(** C8. One stdout chunk, trimmed. The title is set, to the trimmed text,
    exactly when [displayValues] is true, whatever the image pairs are. The
    image is set exactly once: to image1 if the first pair matches, else to
    image2 if the second pair matches, else to the idle image of the
    action. Every command addresses the key of the event. This holds for
    the handler of the background service and for the handler of the
    one-shot script action. *)
Theorem stdoutHandler_effects settings ev data :
  let output := JsString.trim data in
  let cmds := stdoutHandler (normalizeSettings settings) ev data in
  titles cmds = (if truthyBool (displayValues settings) then [output] else [])
  /\ (forall img,
        pairMatch (image1 settings) (value1 settings) output img ->
        images cmds = [img])
  /\ (forall img,
        ~ (exists i, pairMatch (image1 settings) (value1 settings) output i) ->
        pairMatch (image2 settings) (value2 settings) output img ->
        images cmds = [img])
  /\ (~ (exists i, pairMatch (image1 settings) (value1 settings) output i) ->
      ~ (exists i, pairMatch (image2 settings) (value2 settings) output i) ->
      images cmds = ["imgs/actions/pyServiceIcon.png"])
  /\ Forall (fun c => cmdKey c = action_id ev) cmds
  /\ (forall script : PythonScript.PythonScriptSettings,
        let cmds' := PythonScript.stdoutHandler script (action_id ev) data in
        titles cmds' =
          (if truthyBool (PythonScript.displayValues script) then [output] else [])
        /\ (forall img,
              pairMatch (PythonScript.image1 script) (PythonScript.value1 script)
                output img ->
              images cmds' = [img])
        /\ (forall img,
              ~ (exists i, pairMatch (PythonScript.image1 script)
                             (PythonScript.value1 script) output i) ->
              pairMatch (PythonScript.image2 script) (PythonScript.value2 script)
                output img ->
              images cmds' = [img])
        /\ (~ (exists i, pairMatch (PythonScript.image1 script)
                           (PythonScript.value1 script) output i) ->
            ~ (exists i, pairMatch (PythonScript.image2 script)
                           (PythonScript.value2 script) output i) ->
            images cmds' = ["imgs/actions/gemini_icons/pyFileLoaded.png"])
        /\ Forall (fun c => cmdKey c = action_id ev) cmds').
Proof.
  intros output cmds.
  destruct (stdoutImage_cases (image1 settings) (value1 settings)
              (image2 settings) (value2 settings) defaultServiceImage output)
    as (Hi1 & Hi2 & Hi3).
  assert (Hcmds : cmds =
    (if truthyBool (displayValues settings)
     then [SetTitle (action_id ev) output] else [])
    ++ [SetImage (action_id ev)
          (stdoutImage (image1 settings) (value1 settings)
             (image2 settings) (value2 settings) defaultServiceImage output)])
    by reflexivity.
  split_and!.
  - rewrite Hcmds. by destruct (truthyBool _).
  - intros img Hm. rewrite Hcmds, (Hi1 img Hm). by destruct (truthyBool _).
  - intros img Hn Hm. rewrite Hcmds, (Hi2 img Hn Hm). by destruct (truthyBool _).
  - intros Hn1 Hn2. rewrite Hcmds, (Hi3 Hn1 Hn2). by destruct (truthyBool _).
  - rewrite Hcmds. destruct (truthyBool _); repeat constructor.
  - intros script cmds'.
    destruct (stdoutImage_cases (PythonScript.image1 script)
                (PythonScript.value1 script) (PythonScript.image2 script)
                (PythonScript.value2 script) PythonScript.defaultScriptImage output)
      as (Hs1 & Hs2 & Hs3).
    subst cmds'. unfold PythonScript.stdoutHandler. fold output.
    clear Hcmds. clearbody output.
    split_and!.
    + by destruct (truthyBool (PythonScript.displayValues script)).
    + intros img Hm. rewrite (Hs1 img Hm).
      by destruct (truthyBool (PythonScript.displayValues script)).
    + intros img Hn Hm. rewrite (Hs2 img Hn Hm).
      by destruct (truthyBool (PythonScript.displayValues script)).
    + intros Hn1 Hn2. rewrite (Hs3 Hn1 Hn2).
      by destruct (truthyBool (PythonScript.displayValues script)).
    + destruct (truthyBool (PythonScript.displayValues script));
        repeat constructor.
Qed.

Lemma stdoutHandler_effects_witness :
  let run data := stdoutHandler (normalizeSettings onOffSettings) evK data in
  (titles (run " ON ") = ["ON"] /\ images (run " ON ") = ["on.png"])
  /\ images (run "OFF") = ["off.png"]
  /\ images (run "warming up") = ["imgs/actions/pyServiceIcon.png"].
Proof.
  split_and!.
  - apply (stdoutHandler_effects onOffSettings evK " ON ").
  - destruct (stdoutHandler_effects onOffSettings evK " ON ") as (_ & H & _).
    apply H. by vm_compute.
  - destruct (stdoutHandler_effects onOffSettings evK "OFF") as (_ & _ & H & _).
    apply H; [|by vm_compute].
    intros (i & [= <-] & _ & Ho). vm_compute in Ho. discriminate.
  - destruct (stdoutHandler_effects onOffSettings evK "warming up")
      as (_ & _ & _ & H & _).
    apply H; intros (i & [= <-] & _ & Ho); vm_compute in Ho; discriminate.
Defined.

(** C9. [unregisterAction] of an id that is not tracked changes nothing:
    the whole registry (table, run-state, timers) is returned as it was.
    For a tracked id, found at index [i], exactly that entry is deleted
    from the table, its handle (if it has one) is no longer live, the
    run-state is kept, and in a reachable state every other timer is as
    before and the id is tracked no more. *)

Theorem unregisterAction_effects ev s :
  (action_id ev ∉ ids (trackedActions s) -> unregisterAction ev s = s)
  /\ (forall i tracked,
        findIndex (action_id ev) (trackedActions s) = Some (i, tracked) ->
        let s' := unregisterAction ev s in
        trackedActions s' = delete i (trackedActions s)
        /\ S (length (trackedActions s')) = length (trackedActions s)
        /\ state s' = state s
        /\ (forall h, timerId tracked = Some h -> live (timers s') !! h = None)
        /\ (forall k, timerId tracked <> Some k ->
              live (timers s') !! k = live (timers s) !! k)
        /\ (reachable s ->
            (action_id ev ∉ ids (trackedActions s'))
            /\ forall a h, a ∈ trackedActions s' -> timerId a = Some h ->
                  live (timers s') !! h = live (timers s) !! h
                  /\ is_Some (live (timers s) !! h))).
Proof.
  split.
  - intros Hn. apply findIndex_None in Hn. unfold unregisterAction. by rewrite Hn.
  - intros i tracked Hfind s'.
    assert (Hs' : s' = {| trackedActions := delete i (trackedActions s);
                          state := state s;
                          timers := clearIfSet (timerId tracked) (timers s) |}).
    { subst s'. unfold unregisterAction. by rewrite Hfind. }
    pose proof Hfind as Hsplit.
    apply findIndex_Some in Hsplit as (l1 & l2 & Hl & Hlen & Hkey & Hnot & _ & Hdel).
    split_and!.
    + by rewrite Hs'.
    + rewrite Hs'. cbn [trackedActions]. rewrite Hdel, Hl, !length_app. simpl. lia.
    + by rewrite Hs'.
    + intros h Hh. rewrite Hs'. cbn [timers].
      rewrite clearIfSet_live. by rewrite decide_True.
    + intros k Hk. rewrite Hs'. cbn [timers].
      rewrite clearIfSet_live. by rewrite decide_False.
    + intros Hr. apply reachable_consistent in Hr as [Hids Hh Hlive _ _].
      rewrite Hs'. cbn [trackedActions timers]. rewrite Hdel.
      rewrite Hl, ids_app, ids_cons in Hids.
      apply NoDup_app in Hids as (_ & _ & Hc%NoDup_cons).
      split.
      * rewrite ids_app. rewrite <- Hkey in *. set_solver.
      * intros a h Ha Hah.
        assert (Hin : h ∈ handles l1 ++ handles l2).
        { rewrite <- handles_app. apply list_elem_of_omap. eauto. }
        assert (Hne : timerId tracked <> Some h).
        { intros Ht. rewrite Hl in Hh.
          eapply NoDup_handles_middle in Hh as (? & ? & _); [|done].
          set_solver. }
        rewrite clearIfSet_live, decide_False by done.
        split; [done|]. apply Hlive. rewrite Hl, handles_app, handles_cons.
        set_solver.
Qed.

Lemma unregisterAction_effects_witness :
  unregisterAction evEmpty serviceRunningKA = serviceRunningKA
  /\ ids (trackedActions (unregisterAction evK serviceRunningKA)) = ["A"]
  /\ live (timers (unregisterAction evK serviceRunningKA)) !! 0 = None
  /\ is_Some (live (timers (unregisterAction evK serviceRunningKA)) !! 1).
Proof.
  split.
  - apply (unregisterAction_effects evEmpty serviceRunningKA).
    apply findIndex_None. reflexivity.
  - destruct (unregisterAction_effects evK serviceRunningKA) as [_ H].
    destruct (H 0 {| tracked_id := "K"; tracked_ev := evK; timerId := Some 0 |}
                eq_refl) as (Ht & _ & _ & Hh & Hk & _).
    split_and!.
    + by rewrite Ht.
    + by apply Hh.
    + rewrite Hk by discriminate. vm_compute. eauto.
Defined.

(** After [registerAction] the id of the event is tracked. *)

Lemma registerAction_tracks ev s :
  action_id ev ∈ ids (trackedActions (registerAction ev s)).
Proof.
  unfold registerAction.
  destruct (findIndex _ _) as [[i e]|] eqn:Hfind.
  - apply findIndex_Some in Hfind as (l1 & l2 & Hl & _ & Hkey & _ & Hins & _).
    destruct (state s); [destruct (createTimer _ _) as [h T]|];
      cbn [trackedActions]; rewrite Hins, ids_app, ids_cons;
      cbn [tracked_id]; rewrite Hkey; set_solver.
  - cbn [trackedActions]. rewrite ids_app. set_solver.
Qed.

(** C10. The two registration entry points differ. [onWillAppear] calls
    [registerAction] only when the settings are complete (a non-empty path
    and a valid interval) and otherwise leaves the registry as it is;
    [onDidReceiveSettings] calls it always. So a key with incomplete
    settings that is not tracked stays untracked when it appears, and
    becomes tracked when its settings change. Both handlers send the host
    the same image and title commands. *)
Theorem registration_entry_points `{NodeFs} `{NodePath} ev s :
  let complete :=
    JsString.truthy (path (payload_settings ev)) = true
    /\ is_Some (PythonService.getInterval (interval (payload_settings ev))) in
  (complete -> fst (PythonService.onWillAppear ev s) = registerAction ev s)
  /\ (~ complete -> fst (PythonService.onWillAppear ev s) = s)
  /\ fst (PythonService.onDidReceiveSettings ev s) = registerAction ev s
  /\ action_id ev ∈ ids (trackedActions (fst (PythonService.onDidReceiveSettings ev s)))
  /\ (~ complete -> action_id ev ∉ ids (trackedActions s) ->
      action_id ev ∉ ids (trackedActions (fst (PythonService.onWillAppear ev s))))
  /\ snd (PythonService.onWillAppear ev s)
     = snd (PythonService.onDidReceiveSettings ev s).
Proof.
  intros complete.
  unfold PythonService.onWillAppear, PythonService.onDidReceiveSettings.
  cbn [fst snd].
  pose proof (checkSettingsComplete_true (payload_settings ev)) as Hc.
  fold complete in Hc.
  destruct (PythonService.checkSettingsComplete (payload_settings ev)).
  - split_and!; try done; try (intros Hn; exfalso; apply Hn; by apply Hc).
    apply registerAction_tracks.
  - assert (~ complete) by (intros Hcomp; by apply Hc in Hcomp).
    split_and!; try done.
    apply registerAction_tracks.
Qed.

Lemma registration_entry_points_witness :
  fst (@PythonService.onWillAppear venvFs Posix.posixPath evEmpty pyBGService)
    = pyBGService
  /\ ids (trackedActions
           (fst (@PythonService.onDidReceiveSettings venvFs Posix.posixPath
                   evEmpty pyBGService))) = ["E"]
  /\ fst (@PythonService.onWillAppear venvFs Posix.posixPath evK pyBGService)
     = registerAction evK pyBGService.
Proof.
  pose proof (@registration_entry_points venvFs Posix.posixPath evEmpty pyBGService)
    as HE.
  pose proof (@registration_entry_points venvFs Posix.posixPath evK pyBGService)
    as HK.
  cbv zeta in HE, HK.
  destruct HE as (_ & HE2 & HE3 & _). destruct HK as (HK1 & _).
  split; [|split].
  - apply HE2. intros [Hp _]. vm_compute in Hp. discriminate.
  - rewrite HE3. reflexivity.
  - apply HK1. vm_compute. eauto.
Defined.

(** * Further properties of the code *)

(** ** [trim] *)

Lemma trimStart_spec s :
  exists a, s = a +:+ JsString.trimStart s /\ blank a = true
            /\ firstIsWhiteSpace (JsString.trimStart s) = false.
Proof.
  induction s as [|c s (a & Ha & Hb & Hf)]; [by exists ""|].
  cbn [JsString.trimStart].
  destruct (JsString.isWhiteSpace c) eqn:Hc.
  - exists (String c a). split_and!; [|by simpl; rewrite Hc|done].
    change (String c s = String c (a +:+ JsString.trimStart s)). by f_equal.
  - exists "". by split_and!; [|done|simpl; rewrite Hc].
Qed.

Lemma trimEnd_spec s :
  exists b, s = JsString.trimEnd s +:+ b /\ blank b = true
            /\ lastIsWhiteSpace (JsString.trimEnd s) = false.
Proof.
  induction s as [|c s (b & Hb & Hbl & Hl)]; [by exists ""|].
  cbn [JsString.trimEnd].
  destruct (JsString.isWhiteSpace c && JsString.isEmpty (JsString.trimEnd s))
    eqn:Hc.
  - apply andb_true_iff in Hc as [Hc He].
    destruct (JsString.trimEnd s); [|done]. change (s = b) in Hb. subst s.
    exists (String c b). split_and!; [done| |done]. simpl. by rewrite Hc.
  - exists b. split_and!; [|done|].
    + change (String c s = String c (JsString.trimEnd s +:+ b)). by f_equal.
    + destruct (JsString.trimEnd s) as [|c' t] eqn:Ht; [|done].
      simpl in *. by rewrite andb_true_r in Hc.
Qed.

Lemma trimStart_fixed s :
  firstIsWhiteSpace s = false -> JsString.trimStart s = s.
Proof.
  destruct s as [|c s]; [done|].
  cbn [firstIsWhiteSpace JsString.trimStart]. by intros ->.
Qed.

Lemma trimEnd_first s :
  firstIsWhiteSpace s = false -> firstIsWhiteSpace (JsString.trimEnd s) = false.
Proof.
  destruct s as [|c s]; [done|].
  cbn [firstIsWhiteSpace JsString.trimEnd]. intros Hc.
  rewrite Hc. cbn [andb firstIsWhiteSpace]. exact Hc.
Qed.

Lemma trimEnd_idempotent s :
  JsString.trimEnd (JsString.trimEnd s) = JsString.trimEnd s.
Proof.
  induction s as [|c s IH]; [done|]. cbn [JsString.trimEnd].
  destruct (JsString.isWhiteSpace c && JsString.isEmpty (JsString.trimEnd s))
    eqn:Hc; [done|].
  cbn [JsString.trimEnd]. by rewrite IH, Hc.
Qed.

Lemma trim_idempotent s : JsString.trim (JsString.trim s) = JsString.trim s.
Proof.
  unfold JsString.trim.
  destruct (trimStart_spec s) as (a & _ & _ & Hf).
  rewrite (trimStart_fixed (JsString.trimEnd (JsString.trimStart s)))
    by by apply trimEnd_first.
  apply trimEnd_idempotent.
Qed.

Lemma trim_blank s : blank s = true -> JsString.trim s = "".
Proof.
  unfold JsString.trim. induction s as [|c s IH]; [done|].
  simpl. intros [-> Hs]%andb_true_iff. auto.
Qed.

Lemma Number_trim s : JsNumber.Number (JsString.trim s) = JsNumber.Number s.
Proof. unfold JsNumber.Number. by rewrite trim_idempotent. Qed.

(** X1. The key-press check and the timer read the same interval:
    whenever [getInterval] accepts the interval of the settings, with
    value [x], the timer period [normalizeSettings] computes is [x]; and
    whenever [getInterval] rejects it, the timer would run at the default
    of 10 seconds. The extra [trim] in [getInterval] changes nothing. *)
Theorem getInterval_agrees_with_normalizeSettings settings :
  match PythonService.getInterval (interval settings) with
  | Some x => n_interval (normalizeSettings settings) = x
  | None => n_interval (normalizeSettings settings) = 10%float
  end.
Proof.
  unfold PythonService.getInterval, normalizeSettings; cbn [n_interval].
  destruct (interval settings) as [[x|str]|]; [| |done].
  - by destruct (JsNumber.isFinite x && (0 <? x)%float).
  - rewrite Number_trim.
    by destruct (JsNumber.isFinite (JsNumber.Number str)
                 && (0 <? JsNumber.Number str)%float).
Qed.

(** ** [getFileNameFromPath] *)

Lemma includes_slash_cons c r :
  JsString.includes (String c r) "/" = Ascii.eqb c "/" || JsString.includes r "/".
Proof.
  cbn [JsString.includes String.prefix].
  destruct (ascii_dec "/" c) as [<-|Hne]; [by destruct r|].
  assert (Ascii.eqb c "/" = false) as -> by (apply Ascii.eqb_neq; congruence).
  done.
Qed.

Lemma afterLastSlash_no_slash p :
  JsString.includes (JsString.afterLastSlash p) "/" = false.
Proof.
  induction p as [|c p IH]; [done|].
  cbn [JsString.afterLastSlash].
  destruct (JsString.includes p "/") eqn:Hp; [done|].
  destruct (Ascii.eqb c "/") eqn:Hc; [done|].
  by rewrite includes_slash_cons, Hc, Hp.
Qed.

(** X2. [getFileNameFromPath] splits the path at its last slash: the
    result holds no slash, the path is some directory part followed by the
    result, and the directory part is empty or ends with a slash. A path
    without a slash is returned whole. *)
Theorem getFileNameFromPath_spec p :
  ~ occursIn "/" (PythonService.getFileNameFromPath p)
  /\ (exists dir, p = dir +:+ PythonService.getFileNameFromPath p
                  /\ (dir = "" \/ exists d, dir = d +:+ "/"))
  /\ (~ occursIn "/" p -> PythonService.getFileNameFromPath p = p)
  /\ PythonScriptAction.getFileNameFromPath p
     = PythonService.getFileNameFromPath p.
Proof.
  unfold PythonService.getFileNameFromPath, PythonScriptAction.getFileNameFromPath.
  split_and!; [| | |done].
  - apply includes_false, afterLastSlash_no_slash.
  - induction p as [|c p (dir & Hd & Hdir)]; [exists ""; by split; [|left]|].
    cbn [JsString.afterLastSlash].
    destruct (JsString.includes p "/") eqn:Hp.
    + exists (String c dir). split.
      * change (String c p = String c (dir +:+ JsString.afterLastSlash p)).
        by f_equal.
      * right. destruct Hdir as [->|[d ->]].
        -- change (p = JsString.afterLastSlash p) in Hd.
           rewrite Hd, afterLastSlash_no_slash in Hp. discriminate.
        -- by exists (String c d).
    + destruct (Ascii.eqb c "/") eqn:Hc.
      * apply Ascii.eqb_eq in Hc as ->. exists "/". split; [done|].
        right. by exists "".
      * exists "". by split; [|left].
  - intros Hno. apply includes_false in Hno.
    destruct p as [|c p]; [done|].
    rewrite includes_slash_cons in Hno. apply orb_false_iff in Hno as [Hc Hp].
    cbn [JsString.afterLastSlash]. by rewrite Hp, Hc.
Qed.

Lemma getFileNameFromPath_spec_witness :
  PythonService.getFileNameFromPath "cpu.py" = "cpu.py".
Proof.
  apply (proj1 (proj2 (proj2 (getFileNameFromPath_spec "cpu.py")))). occurs.
Defined.

(** ** The stderr message *)

Lemma includes_char_cons c r d :
  JsString.includes (String c r) (String d "")
  = Ascii.eqb c d || JsString.includes r (String d "").
Proof.
  cbn [JsString.includes String.prefix].
  destruct (ascii_dec d c) as [<-|Hne].
  - rewrite Ascii.eqb_refl. by destruct r.
  - assert (Ascii.eqb c d = false) as -> by (apply Ascii.eqb_neq; congruence).
    done.
Qed.

Lemma replaceNewlines_clean n : forall s,
  String.length s <= n ->
  JsString.includes (JsString.replaceNewlines s) (String JsString.CR "") = false
  /\ JsString.includes (JsString.replaceNewlines s) (String JsString.LF "") = false
  /\ String.length (JsString.replaceNewlines s) <= String.length s.
Proof.
  induction n as [|n IH]; intros s Hlen.
  - destruct s; [done|simpl in Hlen; lia].
  - destruct s as [|c r]; [done|]. simpl in Hlen.
    cbn [JsString.replaceNewlines].
    destruct (Ascii.eqb c JsString.CR) eqn:Hcr.
    + destruct r as [|c' r'].
      * split_and!; [done|done|simpl; lia].
      * simpl in Hlen. destruct (Ascii.eqb c' JsString.LF).
        -- destruct (IH r') as (H1 & H2 & H3); [lia|].
           rewrite !includes_char_cons, H1, H2.
           split_and!; [done|done|simpl; lia].
        -- destruct (IH (String c' r')) as (H1 & H2 & H3); [simpl; lia|].
           rewrite !includes_char_cons, H1, H2.
           split_and!; [done|done|simpl in *; lia].
    + destruct (IH r) as (H1 & H2 & H3); [lia|].
      destruct (Ascii.eqb c JsString.LF) eqn:Hlf.
      * rewrite !includes_char_cons, H1, H2.
        split_and!; [done|done|simpl; lia].
      * rewrite !includes_char_cons, H1, H2, Hcr, Hlf.
        split_and!; [done|done|simpl; lia].
Qed.

Lemma replaceNewlines_fixed s :
  JsString.includes s (String JsString.CR "") = false ->
  JsString.includes s (String JsString.LF "") = false ->
  JsString.replaceNewlines s = s.
Proof.
  induction s as [|c r IH]; [done|].
  rewrite !includes_char_cons.
  intros [Hcr Hr]%orb_false_iff [Hlf Hr']%orb_false_iff.
  cbn [JsString.replaceNewlines]. rewrite Hcr, Hlf. f_equal. by apply IH.
Qed.

(** X3. The message the stderr handlers classify holds no carriage return
    and no line feed, is never longer than the trimmed chunk, and is the
    trimmed chunk itself when that holds no line break. *)
Theorem errorStringOf_has_no_line_break data :
  ~ occursIn (String JsString.CR "") (errorStringOf data)
  /\ ~ occursIn (String JsString.LF "") (errorStringOf data)
  /\ String.length (errorStringOf data) <= String.length (JsString.trim data)
  /\ (~ occursIn (String JsString.CR "") (JsString.trim data) ->
      ~ occursIn (String JsString.LF "") (JsString.trim data) ->
      errorStringOf data = JsString.trim data).
Proof.
  unfold errorStringOf.
  destruct (replaceNewlines_clean (String.length (JsString.trim data))
              (JsString.trim data)) as (H1 & H2 & H3); [done|].
  split_and!; [by apply includes_false|by apply includes_false|done|].
  intros Hcr Hlf. apply replaceNewlines_fixed; by apply includes_false.
Qed.

Lemma errorStringOf_has_no_line_break_witness :
  errorStringOf "  NameError: name 'x' is not defined "
  = "NameError: name 'x' is not defined".
Proof.
  apply (proj2 (proj2 (proj2 (errorStringOf_has_no_line_break
           "  NameError: name 'x' is not defined ")))); occurs.
Defined.

(** ** The range of [classify] *)

Lemma classify_range table msg :
  (Forall (fun kt => ~ occursIn kt.1 msg) table
   /\ classify table msg = otherIssue)
  \/ (exists key title, (key, title) ∈ table /\ occursIn key msg
                        /\ classify table msg = title).
Proof.
  induction table as [|[k t] table IH]; [left; by split|].
  cbn [classify]. destruct (JsString.includes msg k) eqn:Hk.
  - right. exists k, t. split_and!; [apply list_elem_of_here| |done].
    by apply includes_occursIn.
  - destruct IH as [[Hall Hc]|(key & title & Hin & Ho & Hc)].
    + left. split; [|done]. constructor; [|done]. by apply includes_false.
    + right. exists key, title. split_and!; [|done|done].
      by apply list_elem_of_further.
Qed.

Lemma pythonErrorMap_labels :
  Forall (fun kt => kt.2 <> otherIssue) pythonErrorMap.
Proof. unfold pythonErrorMap. repeat (constructor; [by vm_compute|]). constructor. Qed.

(** X4. The title of a stderr chunk is the generic "other issue" label
    exactly when no key of the error table occurs in the message (the case
    in which the handler also logs the message); in every other case it is
    the label of a table key that occurs in the message. *)
Theorem classify_other_issue_iff msg :
  (classify pythonErrorMap msg = otherIssue <->
   Forall (fun kt => ~ occursIn kt.1 msg) pythonErrorMap)
  /\ (classify pythonErrorMap msg <> otherIssue ->
      exists key, occursIn key msg
                  /\ (key, classify pythonErrorMap msg) ∈ pythonErrorMap).
Proof.
  pose proof pythonErrorMap_labels as Hlab. rewrite Forall_forall in Hlab.
  destruct (classify_range pythonErrorMap msg)
    as [[Hall Hc]|(key & title & Hin & Ho & Hc)].
  - split; [by split|]. by intros Hne.
  - split.
    + split.
      * intros Heq. rewrite Hc in Heq. subst title.
        by destruct (Hlab _ Hin).
      * intros Hall. rewrite Forall_forall in Hall.
        by destruct (Hall _ Hin).
    + intros _. exists key. by rewrite Hc.
Qed.

Lemma classify_other_issue_iff_witness :
  exists key, occursIn key "IndexError: list index out of range"
    /\ (key, classify pythonErrorMap "IndexError: list index out of range")
       ∈ pythonErrorMap.
Proof.
  apply (proj2 (classify_other_issue_iff "IndexError: list index out of range")).
  by vm_compute.
Defined.

(** ** The registry: more on the table *)

Lemma findIndex_middle key l1 x l2 :
  key ∉ ids l1 -> tracked_id x = key ->
  findIndex key (l1 ++ x :: l2) = Some (length l1, x).
Proof.
  intros Hnot Hx. unfold findIndex. apply list_find_Some. split_and!.
  - by apply list_lookup_middle.
  - done.
  - intros j y Hj Hlt Hy. apply Hnot.
    rewrite lookup_app_l in Hj by done.
    apply list_elem_of_fmap. exists y. split; [done|].
    by eapply list_elem_of_lookup_2.
Qed.

Lemma unregisterAction_untracks ev s :
  NoDup (ids (trackedActions s)) ->
  action_id ev ∉ ids (trackedActions (unregisterAction ev s)).
Proof.
  intros Hnd. unfold unregisterAction.
  destruct (findIndex _ _) as [[i e]|] eqn:Hfind.
  - apply findIndex_Some in Hfind as (l1 & l2 & Hl & _ & Hkey & Hnot & _ & Hdel).
    cbn [trackedActions]. rewrite Hdel.
    rewrite Hl, ids_app, ids_cons in Hnd.
    apply NoDup_app in Hnd as (_ & _ & [Hk _]%NoDup_cons).
    rewrite Hkey in Hk. rewrite ids_app, elem_of_app. tauto.
  - by apply findIndex_None.
Qed.

(** X5. Registering a key that is not tracked and unregistering it again
    gives back the registry exactly as it was: table, run-state and
    timers. *)
Theorem register_then_unregister ev s :
  action_id ev ∉ ids (trackedActions s) ->
  unregisterAction ev (registerAction ev s) = s.
Proof.
  intros Hnot. pose proof Hnot as Hnone. apply findIndex_None in Hnone.
  unfold registerAction. rewrite Hnone.
  unfold unregisterAction. cbn [trackedActions state timers].
  rewrite (findIndex_middle (action_id ev) (trackedActions s)
             {| tracked_id := action_id ev; tracked_ev := ev; timerId := None |}
             [] Hnot eq_refl).
  cbn [timerId clearIfSet]. rewrite delete_middle, app_nil_r.
  by destruct s.
Qed.

Lemma register_then_unregister_witness :
  unregisterAction evA (registerAction evA serviceRunningK) = serviceRunningK.
Proof.
  apply (register_then_unregister evA serviceRunningK).
  apply findIndex_None. reflexivity.
Defined.

(** X6. Unregistering is idempotent on reachable states: a second
    [unregisterAction] for the same key changes nothing. *)
Theorem unregister_twice ev s :
  reachable s ->
  unregisterAction ev (unregisterAction ev s) = unregisterAction ev s.
Proof.
  intros Hr. apply reachable_consistent in Hr as [Hids _ _ _ _].
  pose proof (unregisterAction_untracks ev s Hids) as Hnot.
  apply findIndex_None in Hnot.
  unfold unregisterAction at 1. by rewrite Hnot.
Qed.

Lemma unregister_twice_witness :
  unregisterAction evK (unregisterAction evK serviceRunningKA)
  = unregisterAction evK serviceRunningKA.
Proof.
  apply (unregister_twice evK serviceRunningKA).
  apply reachable_run, reachable_init.
Defined.

(** X7. Every reachable table holds each key id at most once: two tracked
    entries with the same id are the same entry. *)
Theorem reachable_ids_unique s a b :
  reachable s ->
  a ∈ trackedActions s -> b ∈ trackedActions s ->
  tracked_id a = tracked_id b -> a = b.
Proof.
  intros Hr Ha Hb Hab. apply reachable_consistent in Hr as [Hids _ _ _ _].
  apply list_elem_of_lookup in Ha as [i Hi].
  apply list_elem_of_lookup in Hb as [j Hj].
  assert (Hi' : ids (trackedActions s) !! i = Some (tracked_id a)).
  { unfold ids. by rewrite list_lookup_fmap, Hi. }
  assert (Hj' : ids (trackedActions s) !! j = Some (tracked_id a)).
  { unfold ids. by rewrite list_lookup_fmap, Hj, Hab. }
  pose proof (NoDup_lookup _ _ _ _ Hids Hi' Hj') as ->. congruence.
Qed.

Lemma reachable_ids_unique_witness :
  {| tracked_id := "K"; tracked_ev := evK; timerId := Some 0 |}
  = {| tracked_id := "K"; tracked_ev := evK; timerId := Some 0 |}.
Proof.
  apply (reachable_ids_unique serviceRunningKA).
  - apply reachable_run, reachable_init.
  - apply list_elem_of_here.
  - apply list_elem_of_here.
  - reflexivity.
Defined.

(** ** The registry: timers *)

Lemma startEach_lookup l : forall T l' T' i a,
  startEach l T = (l', T') -> l !! i = Some a ->
  l' !! i = Some {| tracked_id := tracked_id a; tracked_ev := tracked_ev a;
                    timerId := Some (fresh T + i) |}.
Proof.
  induction l as [|x l IH]; intros T l' T' i a Hs Hi; [done|].
  cbn [startEach] in Hs.
  destruct (createTimer _ _) as [h0 T2] eqn:Hc.
  destruct (startEach l T2) as [rest' T3] eqn:Hrest. simplify_eq.
  apply createTimer_spec in Hc as (-> & Hf2 & _).
  rewrite clearIfSet_fresh in *.
  destruct i as [|i]; simpl in Hi |- *.
  - simplify_eq. by rewrite Nat.add_0_r.
  - rewrite (IH _ _ _ _ _ Hrest Hi), Hf2. do 3 f_equal. lia.
Qed.

Lemma stopEach_lookup l : forall T l' T' i a,
  stopEach l T = (l', T') -> l !! i = Some a ->
  l' !! i = Some {| tracked_id := tracked_id a; tracked_ev := tracked_ev a;
                    timerId := None |}.
Proof.
  induction l as [|x l IH]; intros T l' T' i a Hs Hi; [done|].
  cbn [stopEach] in Hs.
  destruct (timerId x) as [k|] eqn:Hk.
  - destruct (stopEach l (clearInterval k T)) as [rest' T2] eqn:Hrest.
    simplify_eq. destruct i as [|i]; simpl in Hi |- *.
    + by simplify_eq.
    + by apply (IH _ _ _ _ _ Hrest).
  - destruct (stopEach l T) as [rest' T2] eqn:Hrest.
    simplify_eq. destruct i as [|i]; simpl in Hi |- *.
    + simplify_eq. destruct a; simpl in *; by subst.
    + by apply (IH _ _ _ _ _ Hrest).
Qed.

(** X8. No timer leaks and no timer is shared: in every reachable state
    the live timers of the runtime are exactly the handles stored in the
    table, and no handle is stored twice. *)
Theorem reachable_timers_are_tracked s :
  reachable s ->
  (forall h, is_Some (live (timers s) !! h) <->
             exists a, a ∈ trackedActions s /\ timerId a = Some h)
  /\ NoDup (handles (trackedActions s)).
Proof.
  intros Hr. apply reachable_consistent in Hr as [_ Hh Hlive _ _].
  split; [|done]. intros h. rewrite Hlive. unfold handles.
  by rewrite list_elem_of_omap.
Qed.

Lemma reachable_timers_are_tracked_witness :
  (forall h, is_Some (live (timers serviceRunningKA) !! h) <->
             exists a, a ∈ trackedActions serviceRunningKA /\ timerId a = Some h)
  /\ NoDup (handles (trackedActions serviceRunningKA)).
Proof.
  apply (reachable_timers_are_tracked serviceRunningKA).
  apply reachable_run, reachable_init.
Defined.

(** X9. While the service is stopped nothing is armed: in a reachable
    stopped state no tracked entry holds a handle and the runtime has no
    live timer; so an entry that holds a handle shows that the service is
    running. *)
Theorem reachable_stopped_has_no_timer s :
  reachable s ->
  (state s = stopped ->
     Forall (fun a => timerId a = None) (trackedActions s)
     /\ live (timers s) = ∅)
  /\ (forall a, a ∈ trackedActions s -> is_Some (timerId a) -> state s = running).
Proof.
  intros Hr. split.
  - intros Hst. apply reachable_consistent in Hr as [_ _ Hlive _ Hstop].
    specialize (Hstop Hst). split; [by apply handles_nil_iff|].
    apply map_eq. intros h. rewrite lookup_empty.
    apply eq_None_not_Some. rewrite Hlive, Hstop. apply not_elem_of_nil.
  - intros a Ha Hh. by apply (reachable_timer_running s a).
Qed.

Lemma reachable_stopped_has_no_timer_witness :
  Forall (fun a => timerId a = None)
    (trackedActions (run [CallRegister evK; CallStart evK; CallStop evK] pyBGService))
  /\ live (timers (run [CallRegister evK; CallStart evK; CallStop evK] pyBGService))
     = ∅.
Proof.
  apply (reachable_stopped_has_no_timer
           (run [CallRegister evK; CallStart evK; CallStop evK] pyBGService)).
  - apply reachable_run, reachable_init.
  - reflexivity.
Defined.



(** X11. Registering while the service is stopped never touches a timer:
    from a reachable stopped state the timer table is unchanged, the state
    stays stopped and no entry holds a handle; and registering the same
    event a second time changes nothing more. *)
Theorem registerAction_while_stopped ev s :
  reachable s -> state s = stopped ->
  let s' := registerAction ev s in
  timers s' = timers s
  /\ state s' = stopped
  /\ Forall (fun a => timerId a = None) (trackedActions s')
  /\ registerAction ev s' = s'.
Proof.
  intros Hr Hst s'.
  pose proof (reachable_consistent _ (reachable_call (CallRegister ev) s Hr))
    as Hcons'.
  apply reachable_consistent in Hr as Hcons.
  pose proof (consistent_stopped s Hcons Hst) as Hnone.
  destruct (findIndex (action_id ev) (trackedActions s)) as [[i e]|] eqn:Hfind.
  - pose proof Hfind as Hsplit.
    apply findIndex_Some in Hsplit as (l1 & l2 & Hl & Hlen & Hkey & Hnot & Hins & _).
    assert (He : timerId e = None).
    { rewrite Hl, handles_app, handles_cons in Hnone.
      destruct (timerId e); [|done].
      by apply app_eq_nil in Hnone as [_ ?]. }
    set (x := {| tracked_id := tracked_id e; tracked_ev := ev; timerId := None |}).
    assert (Hs' : s' = {| trackedActions := l1 ++ x :: l2;
                          state := stopped; timers := timers s |}).
    { subst s'. unfold registerAction. rewrite Hfind, Hst, He, Hins. done. }
    assert (Hst' : state s' = stopped) by (by rewrite Hs').
    split_and!; [by rewrite Hs'|done| |].
    + apply handles_nil_iff. by apply (consistent_stopped s' Hcons').
    + rewrite Hs'. unfold registerAction. cbn [trackedActions state timers].
      rewrite (findIndex_middle (action_id ev) l1 x l2 Hnot Hkey).
      cbn [timerId clearIfSet tracked_id x].
      rewrite list_insert_id; [done|]. by apply list_lookup_middle.
  - pose proof Hfind as Hnot. apply findIndex_None in Hnot.
    set (x := {| tracked_id := action_id ev; tracked_ev := ev; timerId := None |}).
    assert (Hs' : s' = {| trackedActions := trackedActions s ++ [x];
                          state := stopped; timers := timers s |}).
    { subst s'. unfold registerAction. by rewrite Hfind, Hst. }
    assert (Hst' : state s' = stopped) by (by rewrite Hs').
    split_and!; [by rewrite Hs'|done| |].
    + apply handles_nil_iff. by apply (consistent_stopped s' Hcons').
    + rewrite Hs'. unfold registerAction. cbn [trackedActions state timers].
      rewrite (findIndex_middle (action_id ev) (trackedActions s) x [] Hnot eq_refl).
      cbn [timerId clearIfSet tracked_id x].
      rewrite list_insert_id; [done|]. by apply list_lookup_middle.
Qed.

Lemma registerAction_while_stopped_witness :
  let s' := registerAction evK' (registerAction evK pyBGService) in
  timers s' = timers (registerAction evK pyBGService)
  /\ state s' = stopped
  /\ Forall (fun a => timerId a = None) (trackedActions s')
  /\ registerAction evK' s' = s'.
Proof.
  apply (registerAction_while_stopped evK' (registerAction evK pyBGService)).
  - apply (reachable_call (CallRegister evK)), reachable_init.
  - reflexivity.
Defined.

(** ** Key presses and page switches *)

Lemma stopped_entries_have_no_timer s i a :
  consistent s -> state s = stopped -> trackedActions s !! i = Some a ->
  timerId a = None.
Proof.
  intros Hc Hst Ha. pose proof (consistent_stopped s Hc Hst) as Hn.
  apply handles_nil_iff in Hn. rewrite Forall_forall in Hn.
  apply Hn. by eapply list_elem_of_lookup_2.
Qed.

(** X12. Two key presses are a round trip. From a reachable stopped state,
    a press with complete settings starts the service and shows the
    running image; a second press (whatever its settings) stops it and
    shows the stopped image; afterwards the table is exactly the table
    before the first press, the state is stopped and no timer is live. *)
Theorem onKeyDown_twice_restores ev1 ev2 s :
  reachable s -> state s = stopped ->
  PythonService.checkSettingsComplete (payload_settings ev1) = true ->
  let r1 := PythonService.onKeyDown ev1 s in
  let r2 := PythonService.onKeyDown ev2 (fst r1) in
  snd r1 = [SetImage (action_id ev1) "imgs/actions/pyServiceRunning.png"]
  /\ state (fst r1) = running
  /\ snd r2 = [SetImage (action_id ev2) "imgs/actions/pyServiceStopped.png"]
  /\ trackedActions (fst r2) = trackedActions s
  /\ state (fst r2) = stopped
  /\ live (timers (fst r2)) = ∅.
Proof.
  intros Hr Hst Hcomplete r1 r2.
  apply reachable_consistent in Hr as Hc.
  assert (Hr1 : r1 = start ev1 s).
  { subst r1. unfold PythonService.onKeyDown, getState. by rewrite Hst, Hcomplete. }
  assert (Hrun : state (fst r1) = running).
  { rewrite Hr1. unfold start. by destruct (startEach _ _). }
  assert (Hr2 : r2 = stop ev2 (fst r1)).
  { subst r2. unfold PythonService.onKeyDown, getState. by rewrite Hrun. }
  assert (Hc1 : consistent (fst r1)) by (rewrite Hr1; by apply consistent_start).
  destruct (stop_clears ev2 (fst r1) Hc1) as (Hs2 & _ & Hlive & _ & _).
  rewrite <- Hr2 in Hs2, Hlive.
  split_and!; try done.
  - rewrite Hr1. unfold start. by destruct (startEach _ _).
  - rewrite Hr2. unfold stop. by destruct (stopEach _ _).
  - rewrite Hr2, Hr1. unfold stop, start.
    destruct (startEach (trackedActions s) (timers s)) as [l1 T1] eqn:Hs1.
    cbn [fst trackedActions timers].
    destruct (stopEach l1 T1) as [l2 T2] eqn:Hstop. cbn [fst trackedActions].
    apply list_eq. intros i.
    destruct (trackedActions s !! i) as [a|] eqn:Ha.
    + pose proof (startEach_lookup _ _ _ _ _ _ Hs1 Ha) as H1.
      rewrite (stopEach_lookup _ _ _ _ _ _ Hstop H1). cbn [tracked_id tracked_ev].
      pose proof (stopped_entries_have_no_timer s i a Hc Hst Ha) as Hn.
      destruct a; simpl in *; by subst.
    + pose proof (startEach_spec _ _ _ _ Hs1 (consistent_fresh s Hc))
        as (_ & Hi1 & _).
      pose proof (stopEach_spec _ _ _ _ Hstop) as (_ & Hi2 & _).
      apply lookup_ge_None. apply lookup_ge_None in Ha.
      rewrite <- (length_fmap tracked_id l2). fold (ids l2).
      rewrite Hi2, Hi1. unfold ids. by rewrite length_fmap.
Qed.

Lemma onKeyDown_twice_restores_witness :
  let s := run [CallRegister evK; CallRegister evA] pyBGService in
  let r1 := PythonService.onKeyDown evK s in
  let r2 := PythonService.onKeyDown evEmpty (fst r1) in
  snd r1 = [SetImage "K" "imgs/actions/pyServiceRunning.png"]
  /\ state (fst r1) = running
  /\ snd r2 = [SetImage "E" "imgs/actions/pyServiceStopped.png"]
  /\ trackedActions (fst r2) = trackedActions s
  /\ state (fst r2) = stopped
  /\ live (timers (fst r2)) = ∅.
Proof.
  apply (onKeyDown_twice_restores evK evEmpty
           (run [CallRegister evK; CallRegister evA] pyBGService)).
  - apply reachable_run, reachable_init.
  - reflexivity.
  - reflexivity.
Defined.

(** X13. A key press never adds or removes a tracked key: from any
    reachable state, whichever branch [onKeyDown] takes, the table keeps
    the same ids with the same events, in the same order. *)
Theorem onKeyDown_keeps_the_keys ev s :
  reachable s ->
  ids (trackedActions (fst (PythonService.onKeyDown ev s)))
    = ids (trackedActions s)
  /\ tracked_ev <$> trackedActions (fst (PythonService.onKeyDown ev s))
     = tracked_ev <$> trackedActions s.
Proof.
  intros Hr. apply reachable_consistent in Hr as Hc.
  unfold PythonService.onKeyDown, getState.
  destruct (state s).
  - unfold stop. destruct (stopEach _ _) as [l T] eqn:Hs. cbn [fst trackedActions].
    by apply stopEach_spec in Hs as (_ & Hi & He & _).
  - destruct (PythonService.checkSettingsComplete _); [|done].
    unfold start. destruct (startEach _ _) as [l T] eqn:Hs.
    cbn [fst trackedActions].
    by apply startEach_spec in Hs as (_ & Hi & He & _);
      [|apply (consistent_fresh s Hc)].
Qed.

Lemma onKeyDown_keeps_the_keys_witness :
  ids (trackedActions (fst (PythonService.onKeyDown evEmpty serviceRunningKA)))
    = ids (trackedActions serviceRunningKA)
  /\ tracked_ev <$> trackedActions (fst (PythonService.onKeyDown evEmpty serviceRunningKA))
     = tracked_ev <$> trackedActions serviceRunningKA.
Proof.
  apply (onKeyDown_keeps_the_keys evEmpty serviceRunningKA).
  apply reachable_run, reachable_init.
Defined.

(** X14. A page switch while the service runs drops the key's timer: after
    [onWillDisappear] and then [onWillAppear] for the same key with
    complete settings, from a reachable running state, the service is
    still running, the key is tracked again as the last entry of the
    table, and that entry holds no timer handle; the handle the key held
    before, if any, is no longer live. *)
Theorem disappear_then_appear_while_running `{NodeFs} `{NodePath} ev s :
  reachable s -> state s = running ->
  PythonService.checkSettingsComplete (payload_settings ev) = true ->
  let s1 := fst (PythonService.onWillDisappear ev s) in
  let s2 := fst (PythonService.onWillAppear ev s1) in
  state s2 = running
  /\ (action_id ev ∉ ids (trackedActions s1))
  /\ trackedActions s2 =
       trackedActions s1
       ++ [ {| tracked_id := action_id ev; tracked_ev := ev; timerId := None |} ]
  /\ timers s2 = timers s1
  /\ (forall a h, a ∈ trackedActions s -> tracked_id a = action_id ev ->
        timerId a = Some h -> live (timers s2) !! h = None).
Proof.
  intros Hr Hst Hcomplete s1 s2.
  apply reachable_consistent in Hr as Hc.
  assert (Hs1 : s1 = unregisterAction ev s) by done.
  assert (Hnot : action_id ev ∉ ids (trackedActions s1)).
  { rewrite Hs1. apply unregisterAction_untracks, (consistent_ids s Hc). }
  assert (Hst1 : state s1 = running).
  { rewrite Hs1. unfold unregisterAction. by destruct (findIndex _ _) as [[? ?]|]. }
  assert (Hs2 : s2 = {| trackedActions := trackedActions s1
                          ++ [ {| tracked_id := action_id ev; tracked_ev := ev;
                                  timerId := None |} ];
                        state := state s1; timers := timers s1 |}).
  { subst s2. unfold PythonService.onWillAppear. cbn [fst]. rewrite Hcomplete.
    unfold registerAction. apply findIndex_None in Hnot. by rewrite Hnot. }
  split_and!; [by rewrite Hs2|done|by rewrite Hs2|by rewrite Hs2|].
  intros a h Ha Hid Hh. rewrite Hs2. cbn [timers]. rewrite Hs1.
  unfold unregisterAction.
  destruct (findIndex (action_id ev) (trackedActions s)) as [[i e]|] eqn:Hfind.
  - cbn [timers]. rewrite clearIfSet_live.
    apply findIndex_Some in Hfind as (l1 & l2 & Hl & _ & Hkey & _).
    assert (Hin : e ∈ trackedActions s).
    { rewrite Hl, elem_of_app, elem_of_cons. tauto. }
    assert (a = e) as ->.
    { apply list_elem_of_lookup in Ha as [ia Hia].
      apply list_elem_of_lookup in Hin as [ie Hie].
      pose proof (consistent_ids s Hc) as Hnd.
      assert (ids (trackedActions s) !! ia = Some (action_id ev))
        by (unfold ids; by rewrite list_lookup_fmap, Hia, <- Hid).
      assert (ids (trackedActions s) !! ie = Some (action_id ev))
        by (unfold ids; by rewrite list_lookup_fmap, Hie, <- Hkey).
      assert (ia = ie) as -> by (by eapply NoDup_lookup).
      congruence. }
    by rewrite decide_True.
  - apply findIndex_None in Hfind. destruct Hfind.
    rewrite <- Hid. apply list_elem_of_fmap. by exists a.
Qed.

Lemma disappear_then_appear_while_running_witness :
  let s1 := fst (@PythonService.onWillDisappear evK serviceRunningKA) in
  let s2 := fst (@PythonService.onWillAppear venvFs Posix.posixPath evK s1) in
  state s2 = running
  /\ ("K" ∉ ids (trackedActions s1))
  /\ trackedActions s2 =
       trackedActions s1
       ++ [ {| tracked_id := "K"; tracked_ev := evK; timerId := None |} ]
  /\ timers s2 = timers s1
  /\ (forall a h, a ∈ trackedActions serviceRunningKA -> tracked_id a = "K" ->
        timerId a = Some h -> live (timers s2) !! h = None).
Proof.
  apply (@disappear_then_appear_while_running venvFs Posix.posixPath
           evK serviceRunningKA).
  - apply reachable_run, reachable_init.
  - reflexivity.
  - reflexivity.
Defined.

(** ** The executor *)

(** X15. Pointing the virtual-environment setting at the marker file or at
    the directory that holds it launches the same interpreter: when the
    setting names a regular file whose [dirname] is not a regular file,
    [createChildProcess] builds the same spawn request as for that
    [dirname]. *)
Theorem createChildProcess_marker_file
  `{NodeFs} `{NodePath} `{NodeOs} `{NodePathJoin} venv scriptPath :
  regularFile venv -> ~ regularFile (dirname venv) ->
  venv <> "" -> dirname venv <> "" ->
  createChildProcess true (Some venv) scriptPath
  = createChildProcess true (Some (dirname venv)) scriptPath.
Proof.
  intros [He Hf] Hdir Hv Hd.
  assert (Hn1 : normalizeVenvPath venv = dirname venv).
  { unfold normalizeVenvPath. by rewrite He, Hf. }
  assert (Hn2 : normalizeVenvPath (dirname venv) = dirname venv).
  { unfold normalizeVenvPath, regularFile in *.
    destruct (existsSync (dirname venv)); [|done].
    destruct (statSync_isFile (dirname venv)) as [[|]|]; try done.
    by destruct Hdir. }
  unfold createChildProcess. cbn [andb].
  change (default "" (Some venv)) with venv.
  change (default "" (Some (dirname venv))) with (dirname venv).
  assert (Ht1 : JsString.truthy (Some venv) = true) by (by destruct venv).
  assert (Ht2 : JsString.truthy (Some (dirname venv)) = true)
    by (by destruct (dirname venv)).
  by rewrite Ht1, Ht2, Hn1, Hn2.
Qed.

Lemma createChildProcess_marker_file_witness :
  @createChildProcess venvFs Posix.posixPath posixHost plainJoin
    true (Some "/home/u/venv/pyvenv.cfg") "/s.py"
  = @createChildProcess venvFs Posix.posixPath posixHost plainJoin
      true (Some "/home/u/venv") "/s.py".
Proof.
  apply (@createChildProcess_marker_file venvFs Posix.posixPath posixHost
           plainJoin "/home/u/venv/pyvenv.cfg" "/s.py").
  - by vm_compute.
  - intros [_ Hf]. vm_compute in Hf. discriminate.
  - discriminate.
  - vm_compute. discriminate.
Defined.

(** X16. What a tick may spawn. [executeAction] spawns nothing exactly
    when the script path is missing or empty, whatever the interval is.
    When it spawns, the request has one argument, the script path (passed
    through [path.win32.normalize] on Windows only); the console window is
    hidden exactly on Windows; and unless [useVenv] is true and
    [venvPath] is set and not empty, the interpreter is the plain
    [python] (Windows) or [python3] found on the search path. *)
Theorem executeAction_spawn `{NodeFs} `{NodePath} `{NodeOs} `{NodePathJoin} ev :
  let settings := payload_settings ev in
  (executeAction ev = None <-> JsString.truthy (path settings) = false)
  /\ (forall req, executeAction ev = Some req ->
        exists scriptPath,
          path settings = Some scriptPath
          /\ spawnArgs req =
               [if isWindows then win32_normalize scriptPath else scriptPath]
          /\ windowsHide req = isWindows
          /\ (truthyBool (useVenv settings)
              && JsString.truthy (venvPath settings) = false ->
              executable req = if isWindows then "python" else "python3")).
Proof.
  intros settings. unfold executeAction.
  change (spread (normalizeSettings (payload_settings ev))) with settings.
  change (n_useVenv (normalizeSettings (payload_settings ev)))
    with (truthyBool (useVenv settings)).
  destruct (path settings) as [p|]; [|by split].
  destruct p as [|c p]; [by split|]. cbn [JsString.isEmpty negb JsString.truthy].
  split; [by split|].
  intros req [= <-]. exists (String c p). split; [done|].
  unfold createChildProcess.
  destruct (truthyBool (useVenv settings) && JsString.truthy (venvPath settings));
    destruct isWindows; by split_and!.
Qed.

Lemma executeAction_spawn_witness :
  exists scriptPath,
    path (payload_settings evK) = Some scriptPath
    /\ spawnArgs {| executable := "python3"; spawnArgs := ["/s.py"];
                    windowsHide := false |} = [scriptPath]
    /\ windowsHide {| executable := "python3"; spawnArgs := ["/s.py"];
                      windowsHide := false |} = false
    /\ (truthyBool (useVenv (payload_settings evK))
        && JsString.truthy (venvPath (payload_settings evK)) = false ->
        executable {| executable := "python3"; spawnArgs := ["/s.py"];
                      windowsHide := false |} = "python3").
Proof.
  apply (proj2 (@executeAction_spawn venvFs Posix.posixPath posixHost plainJoin evK)).
  reflexivity.
Defined.

(** ** Output chunks *)

Lemma trim_spec s :
  exists a b, s = a +:+ JsString.trim s +:+ b
    /\ blank a = true /\ blank b = true
    /\ firstIsWhiteSpace (JsString.trim s) = false
    /\ lastIsWhiteSpace (JsString.trim s) = false.
Proof.
  unfold JsString.trim.
  destruct (trimStart_spec s) as (a & Ha & Hba & Hf).
  destruct (trimEnd_spec (JsString.trimStart s)) as (b & Hb & Hbb & Hl).
  exists a, b. split_and!; [|done|done|by apply trimEnd_first|done].
  by rewrite <- Hb.
Qed.

(** X17. When [displayValues] is on, the title a stdout chunk sets is the
    chunk without its leading and trailing white space: the chunk is some
    white space, the title, and some white space, and the title neither
    starts nor ends with white space. The same holds for the one-shot
    script action. *)
Theorem stdout_title_is_the_trimmed_chunk settings ev data :
  displayValues settings = Some true ->
  exists a t b,
    data = a +:+ t +:+ b
    /\ blank a = true /\ blank b = true
    /\ firstIsWhiteSpace t = false /\ lastIsWhiteSpace t = false
    /\ titles (stdoutHandler (normalizeSettings settings) ev data) = [t]
    /\ forall script,
         PythonScript.displayValues script = Some true ->
         titles (PythonScript.stdoutHandler script (action_id ev) data) = [t].
Proof.
  intros Hd. destruct (trim_spec data) as (a & b & Hs & Ha & Hb & Hf & Hl).
  exists a, (JsString.trim data), b. split_and!; try done.
  - unfold stdoutHandler, normalizeSettings; cbn [n_displayValues].
    by rewrite Hd.
  - intros script Hsd. unfold PythonScript.stdoutHandler. by rewrite Hsd.
Qed.

Lemma stdout_title_is_the_trimmed_chunk_witness :
  exists a t b,
    " 42 " = a +:+ t +:+ b
    /\ blank a = true /\ blank b = true
    /\ firstIsWhiteSpace t = false /\ lastIsWhiteSpace t = false
    /\ titles (stdoutHandler (normalizeSettings onOffSettings) evK " 42 ") = [t]
    /\ forall script,
         PythonScript.displayValues script = Some true ->
         titles (PythonScript.stdoutHandler script (action_id evK) " 42 ") = [t].
Proof.
  apply (stdout_title_is_the_trimmed_chunk onOffSettings evK " 42 ").
  reflexivity.
Defined.

(** X18. Edge cases of the (value, image) pairs. A pair whose value is not
    set matches the empty output: with image1 set (and not empty) and
    value1 absent, every chunk that is only white space shows image1. A
    pair whose image is the empty string never matches: with image1 empty
    and no second image, every chunk shows the idle image, even one equal
    to value1. *)
Theorem stdout_pair_edge_cases settings ev data :
  (forall img, blank data = true ->
     image1 settings = Some img -> img <> "" -> value1 settings = None ->
     images (stdoutHandler (normalizeSettings settings) ev data) = [img])
  /\ (image1 settings = Some "" -> image2 settings = None ->
      images (stdoutHandler (normalizeSettings settings) ev data)
      = ["imgs/actions/pyServiceIcon.png"]).
Proof.
  unfold stdoutHandler, normalizeSettings; cbn [n_displayValues spread].
  split.
  - intros img Hb Hi Hne Hv. rewrite (trim_blank data Hb), Hi, Hv.
    unfold stdoutImage, pairMatches. cbn [default JsString.truthy].
    destruct img as [|c img]; [done|]. cbn.
    by destruct (truthyBool (displayValues settings)).
  - intros Hi1 Hi2. rewrite Hi1, Hi2. unfold stdoutImage, pairMatches. cbn.
    by destruct (truthyBool (displayValues settings)).
Qed.

Lemma stdout_pair_edge_cases_witness :
  images (stdoutHandler
            (normalizeSettings
               {| path := Some "/s.py"; value1 := None; image1 := Some "idle.png";
                  value2 := None; image2 := None; displayValues := None;
                  useVenv := None; venvPath := None; interval := None;
                  settings_id := None |}) evK "  ")
  = ["idle.png"].
Proof.
  apply (proj1 (stdout_pair_edge_cases _ evK "  "));
    [reflexivity|reflexivity|discriminate|reflexivity].
Defined.

(** X19. A blank interval string counts as no interval: when the interval
    is a string of white space only (or the empty string), [Number] makes
    it 0, so the timer period falls back to 10 seconds and
    [checkSettingsComplete] rejects the settings, whatever the path is. *)
Theorem blank_interval_is_rejected settings s :
  interval settings = Some (IntervalString s) -> blank s = true ->
  JsNumber.Number s = 0%float
  /\ n_interval (normalizeSettings settings) = 10%float
  /\ PythonService.checkSettingsComplete settings = false.
Proof.
  intros Hi Hb.
  assert (Hn : JsNumber.Number s = 0%float).
  { unfold JsNumber.Number. by rewrite (trim_blank s Hb). }
  split_and!; [done| |].
  - unfold normalizeSettings; cbn [n_interval]. by rewrite Hi, Hn.
  - unfold PythonService.checkSettingsComplete, PythonService.getInterval.
    rewrite Hi, Number_trim, Hn. cbn. apply andb_false_r.
Qed.

Lemma blank_interval_is_rejected_witness :
  JsNumber.Number "  " = 0%float
  /\ n_interval (normalizeSettings
                   (withInterval (Some "/s.py") (Some (IntervalString "  "))))
     = 10%float
  /\ PythonService.checkSettingsComplete
       (withInterval (Some "/s.py") (Some (IntervalString "  "))) = false.
Proof.
  apply (blank_interval_is_rejected
           (withInterval (Some "/s.py") (Some (IntervalString "  "))) "  ");
    reflexivity.
Defined.

(** ** The one-shot script action: what a key shows *)



(** ** More on registering, stopping and spawning *)

(** X21. [registerAction] is a frame-preserving update of the table, in
    any state: the run-state is kept; the table grows by exactly one entry
    when the id is new and keeps its length when the id is tracked; and
    every entry of another key is still in the table, unchanged. *)
Theorem registerAction_frame ev s :
  let s' := registerAction ev s in
  state s' = state s
  /\ (action_id ev ∉ ids (trackedActions s) ->
      length (trackedActions s') = S (length (trackedActions s)))
  /\ (action_id ev ∈ ids (trackedActions s) ->
      length (trackedActions s') = length (trackedActions s))
  /\ (forall a, a ∈ trackedActions s -> tracked_id a <> action_id ev ->
        a ∈ trackedActions s').
Proof.
  intros s'. subst s'. unfold registerAction.
  destruct (findIndex (action_id ev) (trackedActions s)) as [[i e]|] eqn:Hfind.
  - pose proof Hfind as Hsplit.
    apply findIndex_Some in Hsplit as (l1 & l2 & Hl & _ & Hkey & _ & Hins & _).
    assert (Hin : action_id ev ∈ ids (trackedActions s)).
    { apply findIndex_is_Some. by rewrite Hfind. }
    assert (Hframe : forall x a, a ∈ trackedActions s ->
              tracked_id a <> action_id ev -> a ∈ <[i:=x]> (trackedActions s)).
    { intros x a Ha Hne. rewrite Hins. rewrite Hl in Ha.
      rewrite elem_of_app, elem_of_cons in Ha |- *.
      destruct Ha as [?|[->|?]]; [tauto|by destruct Hne|tauto]. }
    destruct (state s) eqn:Hst.
    + destruct (createTimer _ _) as [h T]. cbn [trackedActions state].
      split_and!; [done|done|by rewrite length_insert|by apply Hframe].
    + cbn [trackedActions state].
      split_and!; [done|done|by rewrite length_insert|by apply Hframe].
  - pose proof Hfind as Hnot. apply findIndex_None in Hnot.
    cbn [trackedActions state]. split_and!; [done| |done|].
    + intros _. rewrite length_app. simpl. lia.
    + intros a Ha _. apply elem_of_app. by left.
Qed.

Lemma registerAction_frame_witness :
  length (trackedActions (registerAction evA serviceRunningK))
  = S (length (trackedActions serviceRunningK)).
Proof.
  apply (proj1 (proj2 (registerAction_frame evA serviceRunningK))).
  apply findIndex_None. reflexivity.
Defined.

(** X22. After [stop] no timer fires: from any reachable state, once
    [stop] has run, a tick of any handle spawns nothing. The same holds
    after [unregisterAction] for the handle the removed key held. *)
Theorem no_tick_after_stop `{NodeFs} `{NodePath} `{NodeOs} `{NodePathJoin} ev s :
  reachable s ->
  (forall h, tick h (fst (stop ev s)) = None)
  /\ (forall i tracked h,
        findIndex (action_id ev) (trackedActions s) = Some (i, tracked) ->
        timerId tracked = Some h ->
        tick h (unregisterAction ev s) = None).
Proof.
  intros Hr. apply reachable_consistent in Hr as Hc. split.
  - intros h. destruct (stop_clears ev s Hc) as (_ & _ & Hlive & _).
    unfold tick. by rewrite Hlive, lookup_empty.
  - intros i tracked h Hfind Hh. unfold tick, unregisterAction.
    rewrite Hfind. cbn [timers]. rewrite clearIfSet_live.
    by rewrite decide_True.
Qed.

Lemma no_tick_after_stop_witness :
  @tick venvFs Posix.posixPath posixHost plainJoin 0
    (fst (stop evK serviceRunningKA)) = None
  /\ @tick venvFs Posix.posixPath posixHost plainJoin 0
       (unregisterAction evK serviceRunningKA) = None.
Proof.
  pose proof (@no_tick_after_stop venvFs Posix.posixPath posixHost plainJoin
                evK serviceRunningKA (reachable_run _ _ reachable_init))
    as [Hstop Hunreg].
  split; [apply Hstop|].
  apply (Hunreg 0 {| tracked_id := "K"; tracked_ev := evK; timerId := Some 0 |});
    reflexivity.
Defined.

(** X23. The one-shot action and the background tick launch the same
    process: when a script action's settings and a service event agree on
    [path], [useVenv] and [venvPath], [PythonScript.onKeyDown] and
    [executeAction] build the same spawn request (or both none),
    whatever the interval of the service key is. *)
Theorem onKeyDown_spawns_like_executeAction
  `{NodeFs} `{NodePath} `{NodeOs} `{NodePathJoin} script ev :
  PythonScript.path script = path (payload_settings ev) ->
  PythonScript.useVenv script = useVenv (payload_settings ev) ->
  PythonScript.venvPath script = venvPath (payload_settings ev) ->
  PythonScriptAction.onKeyDown script = executeAction ev.
Proof.
  intros Hp Hu Hv. unfold PythonScriptAction.onKeyDown, executeAction.
  change (spread (normalizeSettings (payload_settings ev)))
    with (payload_settings ev).
  change (n_useVenv (normalizeSettings (payload_settings ev)))
    with (truthyBool (useVenv (payload_settings ev))).
  by rewrite Hp, Hu, Hv.
Qed.

Lemma onKeyDown_spawns_like_executeAction_witness :
  @PythonScriptAction.onKeyDown venvFs Posix.posixPath posixHost plainJoin
    {| PythonScript.path := Some "/s.py"; PythonScript.value1 := None;
       PythonScript.image1 := None; PythonScript.value2 := None;
       PythonScript.image2 := None; PythonScript.displayValues := None;
       PythonScript.useVenv := None; PythonScript.venvPath := None |}
  = @executeAction venvFs Posix.posixPath posixHost plainJoin evK.
Proof.
  apply (@onKeyDown_spawns_like_executeAction venvFs Posix.posixPath posixHost
           plainJoin); reflexivity.
Defined.
